(** * Streaming LLM endpoint (GA1/Q28): chunker, synthesizer, validator, emitter

    A shallow embedding of [src/app.py] and [streaming_llm_api.py].
    Python [str] values are sequences of Unicode code points; [len] counts
    code points, and [str.split()] / [str.strip()] cut at the code points for
    which [str.isspace] holds. *)

From Stdlib Require Import String Ascii DecimalString SpecFloat.
From Stdlib Require Import List ZArith NArith Lia Bool.
Import ListNotations.
Open Scope Z_scope.
Set Warnings "-register-all".

(** ** Python strings *)

Module PyStr.

Definition char := N.
Definition pystr := list char.

(** An ASCII literal of the source as a sequence of code points. *)
Fixpoint py (s : string) : pystr :=
  match s with
  | EmptyString => []
  | String a r => N_of_ascii a :: py r
  end.

Definition len (s : pystr) : Z := Z.of_nat (length s).
#[global] Arguments len : simpl never.

(** [str.isspace] on one code point: the Unicode white space of CPython. *)
Definition isspace (c : char) : bool :=
  ((9 <=? c) && (c <=? 13) || (28 <=? c) && (c <=? 32) || (c =? 133)
   || (c =? 160) || (c =? 5760) || (8192 <=? c) && (c <=? 8202)
   || (c =? 8232) || (c =? 8233) || (c =? 8239) || (c =? 8287)
   || (c =? 12288))%N.

Definition space : char := 32%N.
Definition newline : char := 10%N.
Definition dquote : char := 34%N.

(** Truthiness of a Python sequence: non-empty. *)
Definition truthy {A} (l : list A) : bool :=
  match l with [] => false | _ :: _ => true end.

(** [text.split()]: maximal runs of non-space code points, in order.
    [word] is the run read so far. *)
Fixpoint split_from (word : pystr) (s : pystr) : list pystr :=
  match s with
  | [] => if truthy word then [word] else []
  | c :: r =>
      if isspace c
      then (if truthy word then word :: split_from [] r else split_from [] r)
      else split_from (word ++ [c]) r
  end.

Definition split (s : pystr) : list pystr := split_from [] s.

(** [sep.join(parts)]. *)
Fixpoint join (sep : pystr) (parts : list pystr) : pystr :=
  match parts with
  | [] => []
  | [x] => x
  | x :: r => x ++ sep ++ join sep r
  end.

Fixpoint lstrip (s : pystr) : pystr :=
  match s with
  | [] => []
  | c :: r => if isspace c then lstrip r else s
  end.

(** [s.strip()]. *)
Definition strip (s : pystr) : pystr := rev (lstrip (rev (lstrip s))).

End PyStr.
Import PyStr.

(** ** The chunker ([chunk_text], identical in both variants) *)

Record chunker := mkChunker {
  chunks : list pystr;
  current_chunk : list pystr;
  current_length : Z
}.

(** One iteration of [for word in words]. *)
Definition chunk_step (chunk_size : Z) (st : chunker) (word : pystr) : chunker :=
  if (current_length st + len word >? chunk_size) && truthy (current_chunk st)
  then {| chunks := chunks st ++ [join [space] (current_chunk st)];
          current_chunk := [word];
          current_length := len word |}
  else {| chunks := chunks st;
          current_chunk := current_chunk st ++ [word];
          current_length := current_length st + (len word + 1) |}.

(** The trailing [if current_chunk: chunks.append(...)]. *)
Definition flush (st : chunker) : list pystr :=
  if truthy (current_chunk st)
  then chunks st ++ [join [space] (current_chunk st)]
  else chunks st.

Definition chunk_words (chunk_size : Z) (st : chunker) (words : list pystr) : chunker :=
  fold_left (chunk_step chunk_size) words st.

Definition chunk_init : chunker :=
  {| chunks := []; current_chunk := []; current_length := 0 |}.

Definition chunk_text (text : pystr) (chunk_size : Z) : list pystr :=
  flush (chunk_words chunk_size chunk_init (split text)).

(** ** The content synthesizer ([generate_streaming_content]) *)

Definition unlines (ls : list pystr) : pystr := join [newline] ls.

(** [src/app.py] *)
Module App.

(** The f-string up to the spliced prompt, and from the prompt on, line by
    line. *)
Definition prefix : pystr := py "Based on your prompt '".

Definition body_lines : list pystr :=
  [ py "', here's a comprehensive response:"
  ; []
  ; py "The streaming API enables real-time content delivery, significantly improving user experience by providing immediate feedback. This implementation uses Server-Sent Events (SSE) to progressively stream JSON chunks to clients."
  ; []
  ; py "Key Features:"
  ; py "- Non-blocking streaming architecture"
  ; py "- Error handling with graceful degradation"
  ; py "- Support for multiple concurrent connections"
  ; py "- Proper resource cleanup and connection management"
  ; []
  ; py "Performance Characteristics:"
  ; py "- First token latency: <2000ms"
  ; py "- Throughput: >30 tokens/second"
  ; py "- Connection pooling enabled"
  ; py "- Automatic backpressure handling"
  ; []
  ; py "The response is delivered in 6+ chunks for demonstration:"
  ; py "This ensures responsive user interfaces and better perceived performance."
  ; py "Each chunk is sent as soon as available, without waiting for completion."
  ; py "The streaming paradigm revolutionizes how we deliver AI-generated content."
  ; py "Real-time feedback transforms user engagement and satisfaction metrics."
  ; py "Implementation details follow industry best practices and standards."
  ; py "This comprehensive solution meets all specified requirements and exceeds expectations."
  ; py "Production-ready streaming infrastructure for maximum reliability and scalability."
  ].

Definition generate_streaming_content (prompt : pystr) : pystr :=
  prefix ++ prompt ++ unlines body_lines.

End App.

(** [streaming_llm_api.py]: the same function with a longer body. *)
Module Api.

Definition prefix : pystr := py "Based on your prompt '".

Definition body_lines : list pystr :=
  [ py "', here's a comprehensive response:"
  ; []
  ; py "The streaming API enables real-time content delivery, significantly improving user experience by providing immediate feedback. This implementation uses Server-Sent Events (SSE) to progressively stream JSON chunks to clients."
  ; []
  ; py "Key Features:"
  ; [8226%N] ++ py " Non-blocking streaming architecture: Leveraging asynchronous I/O to handle many connections."
  ; [8226%N] ++ py " Error handling with graceful degradation: Ensuring that any server-side issues are communicated."
  ; [8226%N] ++ py " Support for multiple concurrent connections: Scaling to meet demand efficiently."
  ; [8226%N] ++ py " Proper resource cleanup and connection management: Preventing memory leaks and socket exhaustion."
  ; []
  ; py "Performance Characteristics:"
  ; py "- First token latency: <2000ms: Optimizing for the fastest possible response start."
  ; py "- Throughput: >30 tokens/second: Ensuring a smooth and steady flow of information."
  ; py "- Connection pooling enabled: Reusing connections to reduce handshake overhead."
  ; py "- Automatic backpressure handling: Managing data flow to match client consumption rates."
  ; []
  ; py "The response is delivered in 6+ chunks for demonstration:"
  ; py "This ensures responsive user interfaces and better perceived performance."
  ; py "Each chunk is sent as soon as available, without waiting for completion."
  ; py "The streaming paradigm revolutionizes how we deliver AI-generated content."
  ; py "Real-time feedback transforms user engagement and satisfaction metrics."
  ; py "Implementation details follow industry best practices and standards."
  ; py "This comprehensive solution meets all specified requirements and exceeds expectations."
  ; py "Production-ready streaming infrastructure for maximum reliability and scalability."
  ; py "Moreover, by using Rust as the underlying technology for high-performance components, we achieve unprecedented speed and efficiency. The combination of memory safety and zero-cost abstractions allows for building systems that are both robust and blazing fast."
  ; []
  ; py "Furthermore, streaming is not just about speed; it's about the interactive experience. When users see words appearing as they are being thought of by the AI, it creates a sense of collaboration and flow that batch processing simply cannot replicate. This is particularly vital in creative applications, coding assistants, and any tool where the user's focus is on the evolving output. By minimizing the time to first token, we bridge the gap between human thought and machine generation, fostering a more intuitive and natural interface. "
  ; []
  ; py "In conclusion, this streaming endpoint is a testament to modern engineering principles, combining SSE protocol efficiency with robust backend processing to deliver a state-of-the-art content generation service. It is designed to be scalable, maintainable, and highly responsive to user needs."
  ].

Definition generate_streaming_content (prompt : pystr) : pystr :=
  prefix ++ prompt ++ unlines body_lines.

End Api.

Definition total_chars (cs : list pystr) : Z :=
  fold_right (fun c n => len c + n) 0 cs.

(** ** JSON: the values the endpoint reads and the ones it writes *)

Module Json.

(** What [request.get_json()] hands back: a parsed JSON document as Python
    values. A [dict] is its items in insertion order. *)
Inductive pyval :=
| PNone
| PBool (b : bool)
| PInt (z : Z)
| PFloat (f : spec_float)
| PStr (s : pystr)
| PList (l : list pyval)
| PDict (d : list (pystr * pyval)).

(** Python truth value ([not x] is its negation). *)
Definition truth (x : pyval) : bool :=
  match x with
  | PNone => false
  | PBool b => b
  | PInt z => negb (z =? 0)
  | PFloat (S754_zero _) => false
  | PFloat _ => true
  | PStr s => truthy s
  | PList l => truthy l
  | PDict d => truthy d
  end.

Definition type_name (x : pyval) : pystr :=
  match x with
  | PNone => py "NoneType"
  | PBool _ => py "bool"
  | PInt _ => py "int"
  | PFloat _ => py "float"
  | PStr _ => py "str"
  | PList _ => py "list"
  | PDict _ => py "dict"
  end.

Definition pystr_eqb (a b : pystr) : bool :=
  if list_eq_dec N.eq_dec a b then true else false.

(** Lookup in a dict; its keys are distinct, so at most one item matches. *)
Fixpoint dict_find (k : pystr) (d : list (pystr * pyval)) : option pyval :=
  match d with
  | [] => None
  | (k', x) :: r => if pystr_eqb k k' then Some x else dict_find k r
  end.

(** The Python values [json.dumps] is applied to in this program. *)
Inductive jval :=
| JStr (s : pystr)
| JInt (z : Z)
| JList (l : list jval)
| JDict (d : list (pystr * jval)).

Definition hex_digit (n : N) : char :=
  (if n <? 10 then 48 + n else 87 + n)%N.

(** ['\\u{0:04x}'.format(n)] *)
Definition u_escape (n : N) : pystr :=
  py "\u" ++ [hex_digit (N.shiftr n 12 mod 16); hex_digit (N.shiftr n 8 mod 16);
              hex_digit (N.shiftr n 4 mod 16); hex_digit (n mod 16)]%N.

(** One code point under [json.dumps] with the default [ensure_ascii]. *)
Definition escape_char (c : char) : pystr :=
  (if c =? 34 then py "\" ++ [dquote]
   else if c =? 92 then py "\\"
   else if c =? 10 then py "\n"
   else if c =? 13 then py "\r"
   else if c =? 9 then py "\t"
   else if c =? 12 then py "\f"
   else if c =? 8 then py "\b"
   else if (32 <=? c) && (c <=? 126) then [c]
   else if c <? 65536 then u_escape c
   else u_escape (N.lor 55296 (N.land (N.shiftr (c - 65536) 10) 1023))
        ++ u_escape (N.lor 56320 (N.land (c - 65536) 1023)))%N.

Definition dumps_str (s : pystr) : pystr :=
  [dquote] ++ flat_map escape_char s ++ [dquote].

Definition dumps_int (z : Z) : pystr := py (NilZero.string_of_int (Z.to_int z)).

(** [json.dumps] with its default separators. *)
Fixpoint dumps (j : jval) : pystr :=
  match j with
  | JStr s => dumps_str s
  | JInt z => dumps_int z
  | JList l => py "[" ++ join (py ", ") (map dumps l) ++ py "]"
  | JDict d =>
      py "{" ++ join (py ", ") (map (fun kv => dumps_str (fst kv) ++ py ": " ++ dumps (snd kv)) d)
      ++ py "}"
  end.

End Json.
Import Json.

(** ** Exceptions and generators *)

(** A computation that returns or raises; [Raise e] carries [str(e)]. *)
Inductive result (A : Type) :=
| Ok (a : A)
| Raise (e : pystr).
Arguments Ok {A} a.
Arguments Raise {A} e.

Definition bind {A B} (m : result A) (k : A -> result B) : result B :=
  match m with
  | Ok a => k a
  | Raise e => Raise e
  end.

Notation "x <- m ;; k" := (bind m (fun x => k))
  (at level 61, m at next level, right associativity).

(** A generator body run to its end: the frames it yielded, and how it
    stopped. *)
Definition gen (A : Type) : Type := list pystr * result A.

Definition gret {A} (a : A) : gen A := ([], Ok a).
Definition gyield (frame : pystr) : gen unit := ([frame], Ok tt).
Definition graise {A} (e : pystr) : gen A := ([], Raise e).

Definition gbind {A B} (m : gen A) (k : A -> gen B) : gen B :=
  match m with
  | (out, Ok a) => let (out', r) := k a in (out ++ out', r)
  | (out, Raise e) => (out, Raise e)
  end.

Notation "m >> k" := (gbind m (fun _ => k)) (at level 62, right associativity).

(** [try: m  except Exception as e: h e] *)
Definition gtry (m : gen unit) (h : pystr -> gen unit) : gen unit :=
  match m with
  | (out, Ok a) => (out, Ok a)
  | (out, Raise e) => let (out', r) := h e in (out ++ out', r)
  end.

(** The calls made inside the loop of [generate]. Which of them raise, at
    which chunk, is a parameter of a run: [f i o = Some e] says that call [o]
    on the chunk at position [i] raises an exception with [str(e) = e]. *)
Inductive call := CallStrip | CallDumps | CallSleep.
Definition faults := nat -> call -> option pystr.

Definition no_faults : faults := fun _ _ => None.

Definition attempt (f : faults) (i : nat) (o : call) : gen unit :=
  match f i o with
  | Some e => graise e
  | None => gret tt
  end.

(** ** The stream emitter ([generate], nested in [stream_endpoint]) *)

Definition sse (payload : pystr) : pystr :=
  py "data: " ++ payload ++ [newline; newline].

Definition response_data (chunk : pystr) : jval :=
  JDict [(py "choices",
          JList [JDict [(py "delta", JDict [(py "content", JStr (chunk ++ [space]))])]])].

Definition delta_frame (chunk : pystr) : pystr := sse (dumps (response_data chunk)).

Definition done_frame : pystr := sse (py "[DONE]").

Definition error_event (e : pystr) : jval :=
  JDict [(py "error", JStr e); (py "code", JInt 500)].

Definition error_frame (e : pystr) : pystr := sse (dumps (error_event e)).

(** [for chunk in chunks: ...], from position [i]. *)
Fixpoint emit_chunks (f : faults) (i : nat) (chunks : list pystr) : gen unit :=
  match chunks with
  | [] => gret tt
  | chunk :: rest =>
      attempt f i CallStrip >>
      (if truthy (strip chunk)
       then attempt f i CallDumps >>
            gyield (delta_frame chunk) >>
            attempt f i CallSleep
       else gret tt) >>
      emit_chunks f (S i) rest
  end.

Definition generate_gen (f : faults) (chunks : list pystr) : gen unit :=
  gtry (emit_chunks f 0 chunks >> gyield done_frame)
       (fun e => gyield (error_frame e)).

(** The frames a client receives from [generate()]. *)
Definition generate (f : faults) (chunks : list pystr) : list pystr :=
  fst (generate_gen f chunks).

(** [data['choices'][0]['delta'].get('content', '')], as the test client of
    [streaming_llm_api.py] reads a frame's payload. *)
Definition content_of (j : jval) : pystr :=
  match j with
  | JDict [(_, JList (JDict [(_, JDict [(_, JStr c)])] :: _))] => c
  | _ => []
  end.

(** ** The endpoint ([stream_endpoint]) *)

Inductive variant := VApp | VApi.

Definition synthesize (v : variant) : pystr -> pystr :=
  match v with
  | VApp => App.generate_streaming_content
  | VApi => Api.generate_streaming_content
  end.

Inductive body :=
| Static (s : pystr)
| Stream (chunks : list pystr).

Record Response := mkResponse {
  response_body : body;
  content_type : pystr;
  status : Z;
  headers : list (pystr * pystr)
}.

(** [request.get_json()]: the parsed document, or the exception Flask raises
    when the body cannot be read as JSON. *)
Inductive get_json_result :=
| Returns (data : pyval)
| Raises (e : pystr).

Definition get_json (r : get_json_result) : result pyval :=
  match r with
  | Returns data => Ok data
  | Raises e => Raise e
  end.

Definition attribute_error (x : pyval) (attr : pystr) : pystr :=
  py "'" ++ type_name x ++ py "' object has no attribute '" ++ attr ++ py "'".

(** [data.get(key, default)] *)
Definition py_get (data : pyval) (key : pystr) (default : pyval) : result pyval :=
  match data with
  | PDict d => Ok (match dict_find key d with Some x => x | None => default end)
  | _ => Raise (attribute_error data (py "get"))
  end.

(** [x.strip()] *)
Definition py_strip (x : pyval) : result pystr :=
  match x with
  | PStr s => Ok (strip s)
  | _ => Raise (attribute_error x (py "strip"))
  end.

Definition event_stream : pystr := py "text/event-stream".

(** The four literal frames of the early returns. *)
Definition no_body_frame : pystr :=
  py "data: {" ++ [dquote] ++ py "error" ++ [dquote] ++ py ": " ++ [dquote]
  ++ py "No JSON body provided" ++ [dquote] ++ py ", " ++ [dquote] ++ py "code"
  ++ [dquote] ++ py ": 400}" ++ [newline; newline].

Definition empty_prompt_frame : pystr :=
  py "data: {" ++ [dquote] ++ py "error" ++ [dquote] ++ py ": " ++ [dquote]
  ++ py "Prompt cannot be empty" ++ [dquote] ++ py ", " ++ [dquote] ++ py "code"
  ++ [dquote] ++ py ": 400}" ++ [newline; newline].

Definition too_long_frame (v : variant) : pystr :=
  py "data: {" ++ [dquote] ++ py "error" ++ [dquote] ++ py ": " ++ [dquote]
  ++ match v with
     | VApp => py "Prompt exceeds maximum length"
     | VApi => py "Prompt exceeds maximum length of 5000 chars"
     end
  ++ [dquote] ++ py ", " ++ [dquote] ++ py "code"
  ++ [dquote] ++ py ": 400}" ++ [newline; newline].

Definition no_stream_frame : pystr :=
  py "data: {" ++ [dquote] ++ py "error" ++ [dquote] ++ py ": " ++ [dquote]
  ++ py "stream parameter must be true" ++ [dquote] ++ py ", " ++ [dquote] ++ py "code"
  ++ [dquote] ++ py ": 400}" ++ [newline; newline].

Definition bad_request (frame : pystr) : Response :=
  {| response_body := Static frame; content_type := event_stream;
     status := 400; headers := [] |}.

Definition stream_headers : list (pystr * pystr) :=
  [(py "Cache-Control", py "no-cache");
   (py "X-Accel-Buffering", py "no");
   (py "Connection", py "keep-alive")].

(** The body of the [try] block. *)
Definition try_stream (v : variant) (r : get_json_result) : result Response :=
  data <- get_json r ;;
  if negb (truth data) then Ok (bad_request no_body_frame)
  else
    got <- py_get data (py "prompt") (PStr []) ;;
    prompt <- py_strip got ;;
    stream <- py_get data (py "stream") (PBool false) ;;
    if negb (truthy prompt) then Ok (bad_request empty_prompt_frame)
    else if len prompt >? 5000 then Ok (bad_request (too_long_frame v))
    else if negb (truth stream) then Ok (bad_request no_stream_frame)
    else
      let content := synthesize v prompt in
      let chunks := chunk_text content 150 in
      Ok {| response_body := Stream chunks; content_type := event_stream;
            status := 200; headers := stream_headers |}.

Definition error_response (e : pystr) : jval :=
  JDict [(py "error", JStr (py "Server error: " ++ e)); (py "code", JInt 500)].

(** [try: ... except Exception as e: ...], shared by both variants: the
    [Response] object the view function returns (what Flask or the
    [after_request] hook of [streaming_llm_api.py] add to it afterwards is not
    part of it). *)
Definition handle_post (v : variant) (r : get_json_result) : Response :=
  match try_stream v r with
  | Ok resp => resp
  | Raise e =>
      {| response_body := Static (sse (dumps (error_response e)));
         content_type := event_stream; status := 500; headers := [] |}
  end.

(** [src/app.py], routed for POST only. *)
Definition stream_endpoint (r : get_json_result) : Response := handle_post VApp r.

(** [streaming_llm_api.py], routed for POST and OPTIONS. *)
Definition api_stream_endpoint (is_options : bool) (r : get_json_result) : Response :=
  if is_options
  then {| response_body := Static []; content_type := py "text/html; charset=utf-8";
          status := 204; headers := [] |}
  else handle_post VApi r.

(** ** The test client of [streaming_llm_api.py] *)

(** [response.iter_lines()]: the body cut at line feeds. *)
Fixpoint iter_lines_from (line : pystr) (s : pystr) : list pystr :=
  match s with
  | [] => if truthy line then [line] else []
  | c :: r =>
      if (c =? newline)%N then line :: iter_lines_from [] r
      else iter_lines_from (line ++ [c]) r
  end.

Fixpoint startswith (prefix s : pystr) : bool :=
  match prefix, s with
  | [], _ => true
  | a :: p, b :: t => (a =? b)%N && startswith p t
  | _ :: _, [] => false
  end.

(** The lines the client counts: non-empty and starting with [data: ]. *)
Definition data_lines (body : pystr) : list pystr :=
  filter (fun line => truthy line && startswith (py "data: ") line)
         (iter_lines_from [] body).

(** A payload the client takes for a content delta: a JSON object with a
    [choices] key first. *)
Definition is_content_delta (frame : pystr) : bool :=
  startswith (py "data: {" ++ [dquote] ++ py "choices" ++ [dquote]) frame.

(** ** Specification vocabulary *)

(** The error taxonomy of the specification, attached to the four early
    returns of [stream_endpoint] in the order the code tests them. *)
Inductive ValidationError :=
| MissingBody
| EmptyPrompt
| PromptTooLong
| StreamingRequired.

Definition error_text (v : variant) (e : ValidationError) : pystr :=
  match e with
  | MissingBody => py "No JSON body provided"
  | EmptyPrompt => py "Prompt cannot be empty"
  | PromptTooLong =>
      match v with
      | VApp => py "Prompt exceeds maximum length"
      | VApi => py "Prompt exceeds maximum length of 5000 chars"
      end
  | StreamingRequired => py "stream parameter must be true"
  end.

Definition validation_frame (v : variant) (e : ValidationError) : pystr :=
  match e with
  | MissingBody => no_body_frame
  | EmptyPrompt => empty_prompt_frame
  | PromptTooLong => too_long_frame v
  | StreamingRequired => no_stream_frame
  end.

(** [data.get('prompt', '')] and [data.get('stream', False)] on a dict. *)
Definition prompt_of (d : list (pystr * pyval)) : pyval :=
  match dict_find (py "prompt") d with Some x => x | None => PStr [] end.

Definition stream_of (d : list (pystr * pyval)) : pyval :=
  match dict_find (py "stream") d with Some x => x | None => PBool false end.

(** When each check fires: the conditions of the four [if]s, each under the
    failure of the ones before it. *)
Inductive rejected : get_json_result -> ValidationError -> Prop :=
| rejected_missing data :
    truth data = false ->
    rejected (Returns data) MissingBody
| rejected_empty d p :
    d <> [] -> prompt_of d = PStr p -> strip p = [] ->
    rejected (Returns (PDict d)) EmptyPrompt
| rejected_long d p :
    d <> [] -> prompt_of d = PStr p -> strip p <> [] -> 5000 < len (strip p) ->
    rejected (Returns (PDict d)) PromptTooLong
| rejected_stream d p :
    d <> [] -> prompt_of d = PStr p -> strip p <> [] -> len (strip p) <= 5000 ->
    truth (stream_of d) = false ->
    rejected (Returns (PDict d)) StreamingRequired.

(** A request that passes all four checks, with the prompt it streams for. *)
Definition accepted (r : get_json_result) (prompt : pystr) : Prop :=
  exists d p,
    r = Returns (PDict d) /\ prompt_of d = PStr p /\ prompt = strip p /\
    prompt <> [] /\ len prompt <= 5000 /\ truth (stream_of d) = true.

Definition streaming (chunks : list pystr) : Response :=
  {| response_body := Stream chunks; content_type := event_stream;
     status := 200; headers := stream_headers |}.

(** The validator mapping read clause by clause, each clause on its own:
    the length clause measures the prompt as sent, the streaming clause
    does not look at the prompt. *)
Definition validator_mapping_as_stated (v : variant) (r : get_json_result) : Prop :=
  (r = Returns PNone ->
   handle_post v r = bad_request (validation_frame v MissingBody)) /\
  (forall d p, r = Returns (PDict d) -> d <> [] -> prompt_of d = PStr p ->
     strip p = [] ->
     handle_post v r = bad_request (validation_frame v EmptyPrompt)) /\
  (forall d p, r = Returns (PDict d) -> prompt_of d = PStr p ->
     5000 < len p ->
     handle_post v r = bad_request (validation_frame v PromptTooLong)) /\
  (forall d, r = Returns (PDict d) -> d <> [] ->
     (dict_find (py "stream") d = None \/
      dict_find (py "stream") d = Some (PBool false)) ->
     handle_post v r = bad_request (validation_frame v StreamingRequired)) /\
  (forall d p, r = Returns (PDict d) -> prompt_of d = PStr p ->
     strip p <> [] -> len p <= 5000 ->
     dict_find (py "stream") d = Some (PBool true) ->
     exists chunks, handle_post v r = streaming chunks).

(** A request that is invalid by the taxonomy as stated: no parseable JSON
    body (none, or [get_json] raising), a prompt that is empty after
    trimming, a prompt of more than 5000 characters as sent, or [stream]
    absent or false. *)
Definition invalid_as_stated (r : get_json_result) : Prop :=
  r = Returns PNone \/
  (exists e, r = Raises e) \/
  (exists d p, r = Returns (PDict d) /\ prompt_of d = PStr p /\
               (strip p = [] \/ 5000 < len p)) \/
  (exists d, r = Returns (PDict d) /\
             (dict_find (py "stream") d = None \/
              dict_find (py "stream") d = Some (PBool false))).

(** The framing of validation failures read over that taxonomy: status 400
    and a fixed body. *)
Definition validation_framing_as_stated (v : variant) (r : get_json_result) : Prop :=
  invalid_as_stated r ->
  status (handle_post v r) = 400 /\
  exists frame, response_body (handle_post v r) = Static frame.

(** ** The chunker algorithm as the specification words it *)

(** Closing a chunk: the accumulated words joined with single spaces; with
    no word accumulated there is no chunk to close. *)
Definition close_chunk (words : list pystr) : list pystr :=
  match words with
  | [] => []
  | _ :: _ => [join [space] words]
  end.

(** The state of the specification's loop: the chunks closed so far and the
    words of the open chunk. *)
Record greedy := mkGreedy {
  closed : list pystr;
  open_words : list pystr
}.

Definition greedy_init : greedy := {| closed := []; open_words := [] |}.

Definition accumulate (st : greedy) (word : pystr) : greedy :=
  {| closed := closed st; open_words := open_words st ++ [word] |}.

Definition start_new (st : greedy) (word : pystr) : greedy :=
  {| closed := closed st ++ close_chunk (open_words st); open_words := [word] |}.

(** Flush of the trailing partial chunk. *)
Definition finish (st : greedy) : list pystr :=
  closed st ++ close_chunk (open_words st).

(** One word of the greedy loop, the words read plainly: accumulate while
    [current_length + len(word) <= max_chunk_chars], where [current_length]
    is the length of the current chunk (its words joined with single spaces);
    otherwise close the current chunk and start a new one with that word. *)
Definition reference_step (max_chunk_chars : Z) (st : greedy) (word : pystr) : greedy :=
  let current_length := len (join [space] (open_words st)) in
  if current_length + len word <=? max_chunk_chars
  then accumulate st word
  else start_new st word.

Definition chunk_text_reference (text : pystr) (max_chunk_chars : Z) : list pystr :=
  finish (fold_left (reference_step max_chunk_chars) (split text) greedy_init).

(** The same loop with its test read by what it is for: close the current
    chunk [when adding the next word would exceed the cap], that is when the
    chunk with the word added would be longer than [max_chunk_chars]. *)
Definition capped_step (max_chunk_chars : Z) (st : greedy) (word : pystr) : greedy :=
  if len (join [space] (open_words st ++ [word])) <=? max_chunk_chars
  then accumulate st word
  else start_new st word.

Definition chunk_text_capped (text : pystr) (max_chunk_chars : Z) : list pystr :=
  finish (fold_left (capped_step max_chunk_chars) (split text) greedy_init).

(** ** Counting chunks by word lengths *)

(** The number of chunks the loop and the final flush add, as a function of
    whether a chunk is open, of [current_length], and of the lengths of the
    words still to come. *)
Fixpoint count_from (chunk_size : Z) (open : bool) (cl : Z) (ls : list Z) : nat :=
  match ls with
  | [] => if open then 1%nat else 0%nat
  | l :: r =>
      if (cl + l >? chunk_size) && open
      then S (count_from chunk_size true l r)
      else count_from chunk_size true (cl + (l + 1)) r
  end.

Definition sum_len (ws : list pystr) : Z :=
  fold_right (fun w n => len w + n) 0 ws.

(** The fixed words that follow the prompt's closing quote and comma. *)
Definition app_tail_words : list pystr := split (skipn 3 (unlines App.body_lines)).
Definition api_tail_words : list pystr := split (skipn 3 (unlines Api.body_lines)).

(** ** Vocabulary of the proofs *)

(** A word as [split] produces them: non-empty, free of white space. *)
Definition is_word (w : pystr) : Prop :=
  w <> [] /\ forallb (fun c => negb (isspace c)) w = true.

(** A string that starts and ends with a code point that is not white
    space. *)
Definition trimmed (s : pystr) : Prop :=
  (exists c t, s = c :: t /\ isspace c = false) /\
  (exists u d, s = u ++ [d] /\ isspace d = false).

(** A chunk the emitter's guard [if chunk.strip()] lets through. *)
Definition nonblank (c : pystr) : Prop := truthy (strip c) = true.

(** A chunk within one character of the cap, or a word of the text. *)
Definition near_cap (chunk_size : Z) (all_words : list pystr) (c : pystr) : Prop :=
  len c <= chunk_size + 1 \/ In c all_words.

Definition cap_invariant (chunk_size : Z) (all_words : list pystr) (st : chunker) : Prop :=
  0 <= current_length st /\
  Forall (near_cap chunk_size all_words) (chunks st) /\
  (current_chunk st <> [] ->
   len (join [space] (current_chunk st)) <= current_length st /\
   near_cap chunk_size all_words (join [space] (current_chunk st))).


(** ** Concrete inputs used below *)

Definition explain_prompt : pystr := py "Explain streaming APIs".

Definition padded_prompt : pystr := repeat 97%N 5000 ++ [space].

Definition padded_request : get_json_result :=
  Returns (PDict [(py "prompt", PStr padded_prompt); (py "stream", PBool true)]).

Definition explain_request : get_json_result :=
  Returns (PDict [(py "prompt", PStr explain_prompt); (py "stream", PBool true)]).

(** ** The greedy cut, seen from the chunks *)

Definition first_word (c : pystr) : pystr := hd [] (split c).

(** No chunk could have taken the first word of the chunk after it and
    stayed within the cap. *)
Fixpoint merge_exceeds (chunk_size : Z) (cs : list pystr) : Prop :=
  match cs with
  | [] => True
  | c :: rest =>
      match rest with
      | [] => True
      | c' :: _ => chunk_size < len c + 1 + len (first_word c')
      end /\ merge_exceeds chunk_size rest
  end.

(** ** The body on the wire *)

(** Printable ASCII, the only code points [json.dumps] writes. *)
Definition printable (c : char) : bool := ((32 <=? c) && (c <=? 126))%N.

Definition all_printable (s : pystr) : Prop := forallb printable s = true.

(** A frame as the generators build them: [data: ], a printable payload and
    a blank line. *)
Definition framed (frame : pystr) : Prop :=
  exists p, frame = sse p /\ all_printable p.

(** [chunk_count] of the test client: one for every [data: ] line. *)
Definition chunk_count (body : pystr) : nat := length (data_lines body).

(** A frame without the blank line that ends it. *)
Definition unframe (frame : pystr) : pystr := removelast (removelast frame).

(** The JSON body [{prompt: ..., stream: ...}] as parsed. *)
Definition chat_request (prompt : pystr) (stream : pyval) : get_json_result :=
  Returns (PDict [(py "prompt", PStr prompt); (py "stream", stream)]).

(** ** The CORS hook of [streaming_llm_api.py] ([add_cors_headers]) *)

(** Header names compare without regard to case; they are ASCII here. *)
Definition ascii_lower (c : char) : char :=
  (if (65 <=? c) && (c <=? 90) then c + 32 else c)%N.

Definition same_header (a b : pystr) : bool :=
  pystr_eqb (map ascii_lower a) (map ascii_lower b).

(** [headers[key] = value]: the first entry of that name is replaced, later
    ones of that name are dropped; without one the entry is appended. *)
Fixpoint headers_set (key value : pystr) (hs : list (pystr * pystr))
  : list (pystr * pystr) :=
  match hs with
  | [] => [(key, value)]
  | (k, x) :: r =>
      if same_header k key
      then (key, value) :: filter (fun kv => negb (same_header (fst kv) key)) r
      else (k, x) :: headers_set key value r
  end.

(** [headers.get(key)] *)
Fixpoint headers_get (key : pystr) (hs : list (pystr * pystr)) : option pystr :=
  match hs with
  | [] => None
  | (k, x) :: r => if same_header k key then Some x else headers_get key r
  end.

Definition allow_origin : pystr := py "Access-Control-Allow-Origin".
Definition allow_methods : pystr := py "Access-Control-Allow-Methods".
Definition allow_headers : pystr := py "Access-Control-Allow-Headers".

Definition add_cors_headers (response : Response) : Response :=
  {| response_body := response_body response;
     content_type := content_type response;
     status := status response;
     headers :=
       headers_set allow_headers (py "Content-Type, Authorization")
         (headers_set allow_methods (py "POST, GET, OPTIONS")
            (headers_set allow_origin (py "*") (headers response))) |}.

(** A request to [streaming_llm_api.py] as a client sees it answered: the
    view, then the [after_request] hook. *)
Definition api_respond (is_options : bool) (r : get_json_result) : Response :=
  add_cors_headers (api_stream_endpoint is_options r).

(** ** [src/simple_app.py] *)

Module SimpleApp.

Definition prefix : pystr := py "Based on your prompt '".

Definition body_lines : list pystr :=
  [ py "', here's a response:"
  ; py "The streaming API enables real-time delivery. This implementation uses Server-Sent Events."
  ; py "Key Features: Non-blocking architecture, error handling, multiple concurrent connections."
  ; py "Performance: First token <2000ms, throughput >30 tokens/second."
  ; py "The response is delivered in chunks: Chunk 1, Chunk 2, Chunk 3, Chunk 4, Chunk 5, Chunk 6."
  ; py "This ensures responsive user interfaces and better perceived performance."
  ; py "Each chunk is sent immediately without waiting for completion."
  ].

(** The f-string; [shown] is the text the prompt is formatted to (the
    prompt itself when it is a string). *)
Definition response (shown : pystr) : pystr :=
  prefix ++ shown ++ unlines body_lines.

(** [s.split('. ')]: cut at every full stop followed by a space, left to
    right; [piece] is the piece read so far. *)
Fixpoint split_dot (piece : pystr) (s : pystr) : list pystr :=
  match s with
  | [] => [piece]
  | c :: r =>
      match r with
      | [] => [piece ++ [c]]
      | c2 :: r2 =>
          if ((c =? 46) && (c2 =? 32))%N
          then piece :: split_dot [] r2
          else split_dot (piece ++ [c]) r
      end
  end.

Definition pieces (shown : pystr) : list pystr := split_dot [] (response shown).

Definition delta_frame (chunk : pystr) : pystr :=
  sse (dumps (JDict [(py "choices",
                      JList [JDict [(py "delta",
                                     JDict [(py "content", JStr (chunk ++ py ". "))])]])])).

(** [for chunk in chunks: if chunk: ...], from position [i]. *)
Fixpoint emit_pieces (f : faults) (i : nat) (chunks : list pystr) : gen unit :=
  match chunks with
  | [] => gret tt
  | chunk :: rest =>
      (if truthy chunk
       then attempt f i CallDumps >>
            gyield (delta_frame chunk) >>
            attempt f i CallSleep
       else gret tt) >>
      emit_pieces f (S i) rest
  end.

(** [generate()]: no handler around the loop. *)
Definition generate_gen (f : faults) (shown : pystr) : gen unit :=
  emit_pieces f 0 (pieces shown) >> gyield done_frame.

Definition generate (f : faults) (shown : pystr) : list pystr :=
  fst (generate_gen f shown).

(** ['. ' in s] *)
Fixpoint has_sep (s : pystr) : bool :=
  match s with
  | [] => false
  | c :: r =>
      match r with
      | [] => false
      | c2 :: _ => ((c =? 46) && (c2 =? 32))%N || has_sep r
      end
  end.

End SimpleApp.

(** ** The CSV endpoints ([get_students] of [fast_api/main.py] and
    [server.py]) *)

Module Students.

(** A cell of the frame [read_csv] built. *)
Inductive cell :=
| CStr (s : pystr)
| CInt (z : Z)
| CFloat (f : spec_float)
| CBool (b : bool)
| CNaN.

(** The frame: its column names, and its rows in file order. *)
Record DataFrame := mkDataFrame {
  columns : list pystr;
  rows : list (list cell)
}.

Fixpoint column_index (name : pystr) (cols : list pystr) : option nat :=
  match cols with
  | [] => None
  | c :: r =>
      if pystr_eqb c name then Some 0%nat
      else option_map S (column_index name r)
  end.

(** One entry of [Series.isin(values)] for a list of strings. *)
Definition isin (values : list pystr) (c : cell) : bool :=
  match c with
  | CStr s => existsb (pystr_eqb s) values
  | _ => false
  end.

(** [data.to_dict(orient="records")] *)
Definition to_records (cols : list pystr) (rs : list (list cell))
  : list (list (pystr * cell)) :=
  map (combine cols) rs.

(** The body of [get_students]; the value under ["students"]. A missing
    column raises [KeyError]. *)
Definition get_students (df : DataFrame) (class_ : option (list pystr))
  : result (list (list (pystr * cell))) :=
  match class_ with
  | Some (c :: cs) =>
      match column_index (py "class") (columns df) with
      | None => Raise (py "'class'")
      | Some i =>
          Ok (to_records (columns df)
                (filter (fun row => isin (c :: cs) (nth i row CNaN)) (rows df)))
      end
  | _ => Ok (to_records (columns df) (rows df))
  end.

(** [record["class"]] of a returned record, [NaN] when there is none. *)
Fixpoint record_get (name : pystr) (record : list (pystr * cell)) : option cell :=
  match record with
  | [] => None
  | (k, x) :: r => if pystr_eqb k name then Some x else record_get name r
  end.

Definition class_of (record : list (pystr * cell)) : cell :=
  match record_get (py "class") record with
  | Some x => x
  | None => CNaN
  end.

End Students.

(** * Properties *)

(** ** Strings *)

Section Strings.

Lemma truthy_true {A} (l : list A) : truthy l = true <-> l <> [].
Proof. destruct l; simpl; split; congruence. Qed.

Lemma truthy_false {A} (l : list A) : truthy l = false <-> l = [].
Proof. destruct l; simpl; split; congruence. Qed.

Lemma len_nonneg (s : pystr) : 0 <= len s.
Proof. unfold len. lia. Qed.

Lemma len_app (a b : pystr) : len (a ++ b) = len a + len b.
Proof. unfold len. rewrite length_app. lia. Qed.

Lemma len_nil_iff (s : pystr) : len s = 0 <-> s = [].
Proof. unfold len. destruct s; simpl; split; (congruence || lia). Qed.

(** A white-space code point ends the word being read and starts afresh. *)
Lemma split_from_app_space (c : char) (x y word : pystr) :
  isspace c = true ->
  split_from word (x ++ c :: y) = split_from word x ++ split_from [] y.
Proof.
  intros Hc. revert word.
  induction x as [|a x IH]; intros word; simpl.
  - rewrite Hc. destruct (truthy word); reflexivity.
  - destruct (isspace a).
    + destruct (truthy word); simpl; rewrite IH; reflexivity.
    + apply IH.
Qed.

Lemma split_app_space (c : char) (x y : pystr) :
  isspace c = true -> split (x ++ c :: y) = split x ++ split y.
Proof. apply split_from_app_space. Qed.

Lemma split_from_words (s word : pystr) :
  forallb (fun c => negb (isspace c)) word = true ->
  Forall is_word (split_from word s).
Proof.
  revert word. induction s as [|c s IH]; intros word Hw; simpl.
  - destruct word; simpl; constructor; [|constructor].
    split; [discriminate | exact Hw].
  - destruct (isspace c) eqn:Hc.
    + destruct word; simpl.
      * apply IH. reflexivity.
      * constructor; [split; [discriminate | exact Hw] | apply IH; reflexivity].
    + apply IH. rewrite forallb_app, Hw. simpl. rewrite Hc. reflexivity.
Qed.

Lemma split_words (s : pystr) : Forall is_word (split s).
Proof. apply split_from_words. reflexivity. Qed.

Lemma split_blank (s : pystr) : forallb isspace s = true -> split s = [].
Proof.
  unfold split. induction s as [|c s IH]; simpl; [reflexivity|].
  intros H. apply andb_true_iff in H as [Hc Hs]. rewrite Hc. auto.
Qed.

Lemma join_cons (sep x : pystr) (r : list pystr) :
  r <> [] -> join sep (x :: r) = x ++ sep ++ join sep r.
Proof. destruct r; [congruence | reflexivity]. Qed.

Lemma join_app (sep : pystr) (a b : list pystr) :
  a <> [] -> b <> [] -> join sep (a ++ b) = join sep a ++ sep ++ join sep b.
Proof.
  intros Ha Hb. induction a as [|x a IH]; [congruence|].
  destruct a as [|y a].
  - simpl app. rewrite join_cons by assumption. reflexivity.
  - change ((x :: y :: a) ++ b) with (x :: ((y :: a) ++ b)).
    rewrite join_cons by discriminate.
    rewrite IH by discriminate.
    rewrite (join_cons sep x (y :: a)) by discriminate.
    rewrite <- !app_assoc. reflexivity.
Qed.

(** Joining the joined groups is joining all the words. *)
Lemma join_groups (sep : pystr) (gs : list (list pystr)) :
  Forall (fun g => g <> []) gs ->
  join sep (map (join sep) gs) = join sep (concat gs).
Proof.
  induction 1 as [|g gs Hg Hgs IH]; [reflexivity|].
  destruct gs as [|g' gs].
  - simpl. rewrite app_nil_r. reflexivity.
  - change (map (join sep) (g :: g' :: gs))
      with (join sep g :: map (join sep) (g' :: gs)).
    rewrite join_cons by discriminate. rewrite IH.
    change (concat (g :: g' :: gs)) with (g ++ concat (g' :: gs)).
    rewrite join_app; [reflexivity | assumption |].
    inversion Hgs; subst. simpl. destruct g'; [congruence | discriminate].
Qed.

Lemma trimmed_strip (s : pystr) : trimmed s -> strip s = s /\ s <> [].
Proof.
  intros [(c & t & Hs & Hc) (u & d & Hs' & Hd)]. split; [|subst; discriminate].
  unfold strip.
  assert (Hl : lstrip s = s) by (rewrite Hs; simpl; rewrite Hc; reflexivity).
  rewrite Hl, Hs', rev_app_distr. simpl. rewrite Hd.
  change (d :: rev u) with ([d] ++ rev u).
  rewrite rev_app_distr, rev_involutive. reflexivity.
Qed.

Lemma trimmed_sep (sep a b : pystr) :
  trimmed a -> trimmed b -> trimmed (a ++ sep ++ b).
Proof.
  intros [(c & t & Ha & Hc) _] [_ (u & d & Hb & Hd)]. split.
  - exists c, (t ++ sep ++ b). rewrite Ha. split; [reflexivity | assumption].
  - exists (a ++ sep ++ u), d. rewrite Hb, <- !app_assoc.
    split; [reflexivity | assumption].
Qed.

Lemma word_trimmed (w : pystr) : is_word w -> trimmed w.
Proof.
  intros [Hne Hall]. split.
  - destruct w as [|c t]; [congruence|]. exists c, t. split; [reflexivity|].
    simpl in Hall. apply andb_true_iff in Hall as [Hc _].
    destruct (isspace c); [discriminate | reflexivity].
  - destruct (exists_last Hne) as (u & d & Hw). exists u, d. split; [assumption|].
    rewrite Hw, forallb_app in Hall. apply andb_true_iff in Hall as [_ Hd].
    simpl in Hd. destruct (isspace d); [discriminate | reflexivity].
Qed.

Lemma join_trimmed (sep : pystr) (ws : list pystr) :
  ws <> [] -> Forall is_word ws -> trimmed (join sep ws).
Proof.
  intros Hne Hall. induction Hall as [|w ws Hw Hws IH]; [congruence|].
  destruct ws as [|w' ws].
  - simpl. apply word_trimmed, Hw.
  - rewrite join_cons by discriminate.
    apply trimmed_sep; [apply word_trimmed, Hw | apply IH; discriminate].
Qed.

End Strings.

(** ** The chunker *)

Section Chunker.

Variable chunk_size : Z.

Lemma chunk_words_cons (st : chunker) (w : pystr) (ws : list pystr) :
  chunk_words chunk_size st (w :: ws)
  = chunk_words chunk_size (chunk_step chunk_size st w) ws.
Proof. reflexivity. Qed.

Lemma chunk_words_app (st : chunker) (a b : list pystr) :
  chunk_words chunk_size st (a ++ b)
  = chunk_words chunk_size (chunk_words chunk_size st a) b.
Proof. apply fold_left_app. Qed.

Lemma chunk_step_open (st : chunker) (w : pystr) :
  current_chunk (chunk_step chunk_size st w) <> [].
Proof.
  unfold chunk_step.
  destruct ((current_length st + len w >? chunk_size) && truthy (current_chunk st));
    simpl; [discriminate|].
  destruct (current_chunk st); discriminate.
Qed.

Lemma chunk_words_open (st : chunker) (ws : list pystr) :
  current_chunk st <> [] \/ ws <> [] ->
  current_chunk (chunk_words chunk_size st ws) <> [].
Proof.
  revert st. induction ws as [|w ws IH]; intros st H.
  - destruct H as [H|H]; [exact H | congruence].
  - rewrite chunk_words_cons. apply IH. left. apply chunk_step_open.
Qed.

(** The loop cuts the words into consecutive non-empty groups: the closed
    chunks are the joined groups and the open chunk holds the rest. *)
Lemma chunk_words_groups (ws : list pystr) (st : chunker) :
  exists gs,
    chunks (chunk_words chunk_size st ws) = chunks st ++ map (join [space]) gs /\
    Forall (fun g => g <> []) gs /\
    concat gs ++ current_chunk (chunk_words chunk_size st ws)
    = current_chunk st ++ ws.
Proof.
  revert st. induction ws as [|w ws IH]; intros st.
  - exists []. simpl. rewrite !app_nil_r. auto.
  - rewrite chunk_words_cons.
    destruct (IH (chunk_step chunk_size st w)) as (gs & Hc & Hne & Hcat).
    unfold chunk_step in *.
    destruct ((current_length st + len w >? chunk_size) && truthy (current_chunk st))
      eqn:Hif; simpl in *.
    + apply andb_true_iff in Hif as [_ Hopen]. apply truthy_true in Hopen.
      exists (current_chunk st :: gs). simpl. split; [|split].
      * rewrite Hc, <- app_assoc. reflexivity.
      * constructor; assumption.
      * rewrite <- app_assoc, Hcat. reflexivity.
    + exists gs. split; [assumption | split; [assumption|]].
      rewrite Hcat, <- app_assoc. reflexivity.
Qed.

Lemma chunk_text_groups (text : pystr) :
  exists gs,
    chunk_text text chunk_size = map (join [space]) gs /\
    Forall (fun g => g <> []) gs /\
    concat gs = split text.
Proof.
  unfold chunk_text, flush.
  destruct (chunk_words_groups (split text) chunk_init) as (gs & Hc & Hne & Hcat).
  simpl in Hc, Hcat. rewrite Hc.
  destruct (current_chunk (chunk_words chunk_size chunk_init (split text)))
    as [|w cur] eqn:Hcur; simpl.
  - exists gs. rewrite app_nil_r in Hcat. auto.
  - exists (gs ++ [w :: cur]). rewrite map_app, concat_app. simpl.
    rewrite app_nil_r. split; [reflexivity | split; [|assumption]].
    apply Forall_app. split; [assumption|]. constructor; [discriminate | constructor].
Qed.

(** Every chunk is a single-space join of one or more words of the text. *)
Lemma chunk_text_joined_words (text : pystr) :
  Forall (fun c => exists ws, ws <> [] /\ Forall is_word ws /\ c = join [space] ws)
         (chunk_text text chunk_size).
Proof.
  destruct (chunk_text_groups text) as (gs & -> & Hne & Hcat).
  pose proof (split_words text) as Hw. rewrite <- Hcat in Hw. clear Hcat.
  induction gs as [|g gs IH]; simpl; constructor.
  - exists g. inversion Hne; subst. simpl in Hw. apply Forall_app in Hw as [Hg _].
    auto.
  - inversion Hne; subst. simpl in Hw. apply Forall_app in Hw as [_ Hgs]. auto.
Qed.

Lemma chunk_text_trimmed (text : pystr) :
  Forall trimmed (chunk_text text chunk_size).
Proof.
  eapply Forall_impl; [|apply chunk_text_joined_words].
  intros c (ws & Hne & Hws & ->). apply join_trimmed; assumption.
Qed.

End Chunker.

(** ** The chunk size is a cap on the first chunk only *)

Section SoftCap.

Variable chunk_size : Z.
Variable all_words : list pystr.

Lemma cap_invariant_step (st : chunker) (w : pystr) :
  In w all_words -> cap_invariant chunk_size all_words st ->
  cap_invariant chunk_size all_words (chunk_step chunk_size st w).
Proof.
  intros Hin (Hcl & Hchunks & Hcur). pose proof (len_nonneg w) as Hw.
  unfold chunk_step.
  destruct (current_length st + len w >? chunk_size) eqn:Hgt; simpl.
  - destruct (current_chunk st) as [|w0 cur] eqn:Hc; simpl.
    + repeat split; simpl; [lia | assumption | lia | right; assumption].
    + destruct Hcur as [_ Hnear]; [discriminate|].
      repeat split; simpl; [lia | | lia | right; assumption].
      apply Forall_app. split; [assumption | constructor; [assumption | constructor]].
  - rewrite Z.gtb_ltb in Hgt. apply Z.ltb_ge in Hgt.
    destruct (current_chunk st) as [|w0 cur] eqn:Hc; simpl.
    + repeat split; simpl; [lia | assumption | lia | right; assumption].
    + destruct Hcur as [Hlen _]; [discriminate|].
      assert (Hj : len (join [space] ((w0 :: cur) ++ [w]))
                   = len (join [space] (w0 :: cur)) + 1 + len w).
      { rewrite join_app by discriminate. rewrite !len_app. simpl join.
        change (len [space]) with 1. lia. }
      split; [simpl; lia | split; [assumption|]]. intros _.
      cbn [current_chunk current_length chunks].
      change (w0 :: cur ++ [w]) with ((w0 :: cur) ++ [w]).
      split; [lia | left; lia].
Qed.

Lemma cap_invariant_words (ws : list pystr) (st : chunker) :
  incl ws all_words -> cap_invariant chunk_size all_words st ->
  cap_invariant chunk_size all_words (chunk_words chunk_size st ws).
Proof.
  revert st. induction ws as [|w ws IH]; intros st Hincl Hinv; [exact Hinv|].
  rewrite chunk_words_cons. apply IH.
  - intros x Hx. apply Hincl. right. exact Hx.
  - apply cap_invariant_step; [apply Hincl; left; reflexivity | exact Hinv].
Qed.

End SoftCap.

(** What the code does guarantee: a chunk of several words is at most one
    character over the cap. *)
Lemma chunk_text_cap_plus_one (text : pystr) (chunk_size : Z) :
  Forall (fun c => len c <= chunk_size + 1 \/ In c (split text))
         (chunk_text text chunk_size).
Proof.
  assert (H : cap_invariant chunk_size (split text)
                (chunk_words chunk_size chunk_init (split text))).
  { apply cap_invariant_words; [apply incl_refl|].
    split; [simpl; lia | split; [constructor | simpl; congruence]]. }
  destruct H as (_ & Hchunks & Hcur). unfold chunk_text, flush.
  destruct (current_chunk _) as [|w cur] eqn:Hc; simpl; [exact Hchunks|].
  apply Forall_app. split; [exact Hchunks|].
  constructor; [|constructor]. apply Hcur. discriminate.
Qed.

(** C2 (chunker boundary), evaluated where the code leaves it: with cap 3 the
    text [x ab c] is cut into [x] and [ab c]; the second chunk has two words
    and four characters, one more than the cap. *)
Theorem chunk_text_two_words_over_cap :
  chunk_text (py "x ab c") 3 = [py "x"; py "ab c"] /\
  len (py "ab c") = 4 /\
  split (py "ab c") = [py "ab"; py "c"].
Proof. repeat split; reflexivity. Qed.

(** The same excess shows in the endpoint's own output: chunks of 151
    characters under the cap of 150. *)
Example app_chunk_lengths :
  map len (chunk_text (App.generate_streaming_content explain_prompt) 150)
  = [147; 147; 151; 143; 147; 140; 146; 149; 65].
Proof. vm_compute. reflexivity. Qed.

(** ** Round trip *)

(** C3 (chunker round trip): joining the chunks with single spaces gives
    the words of the text joined with single spaces, and a text of white
    space only gives no chunk. *)
Theorem chunk_text_roundtrip (text : pystr) (N : Z) :
  1 <= N ->
  join [space] (chunk_text text N) = join [space] (split text) /\
  (forallb isspace text = true -> chunk_text text N = []).
Proof.
  intros _. split.
  - destruct (chunk_text_groups N text) as (gs & -> & Hne & <-).
    apply join_groups, Hne.
  - intros Hblank. unfold chunk_text. rewrite split_blank by assumption.
    reflexivity.
Qed.

Lemma chunk_text_roundtrip_witness :
  join [space] (chunk_text (py "  hello   big world ") 5) = py "hello big world" /\
  chunk_text ([space; newline; 9%N]) 5 = [] /\
  chunk_text [] 5 = [].
Proof.
  split; [|split].
  - apply (chunk_text_roundtrip (py "  hello   big world ") 5). lia.
  - apply (chunk_text_roundtrip [space; newline; 9%N] 5); [lia | reflexivity].
  - apply (chunk_text_roundtrip [] 5); [lia | reflexivity].
Defined.

(** ** The specification's greedy algorithm *)

Section CappedReading.

Variable N : Z.
Variable all_words : list pystr.

(** Read by what its test is for, the specification's loop keeps its own
    boundary: a chunk is within the cap or is a single word of the text. *)
Lemma capped_step_within (st : greedy) (w : pystr) :
  In w all_words ->
  Forall (fun c => len c <= N \/ In c all_words) (finish st) ->
  Forall (fun c => len c <= N \/ In c all_words) (finish (capped_step N st w)).
Proof.
  intros Hw Hst. unfold capped_step, finish in *.
  apply Forall_app in Hst as [Hclosed Hopen].
  destruct (len (join [space] (open_words st ++ [w])) <=? N) eqn:Hfit.
  - apply Z.leb_le in Hfit. cbn [accumulate closed open_words].
    apply Forall_app. split; [exact Hclosed|].
    destruct (open_words st); simpl close_chunk;
      (constructor; [left; exact Hfit | constructor]).
  - cbn [start_new closed open_words]. rewrite <- app_assoc.
    apply Forall_app. split; [exact Hclosed|].
    apply Forall_app. split; [exact Hopen|].
    simpl. constructor; [right; exact Hw | constructor].
Qed.

Lemma capped_words_within (ws : list pystr) (st : greedy) :
  incl ws all_words ->
  Forall (fun c => len c <= N \/ In c all_words) (finish st) ->
  Forall (fun c => len c <= N \/ In c all_words)
         (finish (fold_left (capped_step N) ws st)).
Proof.
  revert st. induction ws as [|w ws IH]; intros st Hincl Hst; [exact Hst|].
  simpl fold_left. apply IH.
  - intros x Hx. apply Hincl. right. exact Hx.
  - apply capped_step_within; [apply Hincl; left; reflexivity | exact Hst].
Qed.

End CappedReading.

Lemma chunk_text_capped_within_cap (text : pystr) (N : Z) :
  Forall (fun c => len c <= N \/ In c (split text)) (chunk_text_capped text N).
Proof.
  unfold chunk_text_capped. apply capped_words_within; [apply incl_refl|].
  constructor.
Qed.

(** C4 (chunker algorithm refinement), evaluated where the code leaves the
    specification's loop. With [current_length] the length of the current
    chunk, the loop keeps [ab c] together under cap 3 (2 + 1 <= 3) and
    [chunk_text] cuts it into [ab] and [c]; with the test read as the chunk
    staying within the cap, the loop cuts [x ab c] into [x], [ab], [c] and
    [chunk_text] returns [x] and [ab c]. The code's counter is the length
    plus one before the first chunk is closed and the length after, so it
    follows neither. *)
Theorem chunk_text_leaves_reference :
  (chunk_text (py "ab c") 3 = [py "ab"; py "c"] /\
   chunk_text_reference (py "ab c") 3 = [py "ab c"]) /\
  (chunk_text (py "x ab c") 3 = [py "x"; py "ab c"] /\
   chunk_text_capped (py "x ab c") 3 = [py "x"; py "ab"; py "c"]).
Proof. repeat split; reflexivity. Qed.

(** ** The emitter *)

Section Emitter.

Lemma trimmed_nonblank (c : pystr) : trimmed c -> nonblank c.
Proof.
  intros H. destruct (trimmed_strip c H) as [Hs Hne].
  unfold nonblank. rewrite Hs. apply truthy_true, Hne.
Qed.

Lemma delta_frame_is_delta (c : pystr) : is_content_delta (delta_frame c) = true.
Proof. reflexivity. Qed.




(** The loop yields the delta frames of a prefix of the chunks, in order;
    it ends normally after all of them when no call raises, and otherwise
    raises the first fault. *)
Lemma emit_chunks_shape (f : faults) (cs : list pystr) (i : nat) :
  Forall nonblank cs ->
  exists k,
    fst (emit_chunks f i cs) = map delta_frame (firstn k cs) /\
    (k <= length cs)%nat /\
    ((snd (emit_chunks f i cs) = Ok tt /\ k = length cs /\
      forall j o, (i <= j < i + length cs)%nat -> f j o = None)
     \/
     (exists e j o, snd (emit_chunks f i cs) = Raise e /\ f j o = Some e /\
                    (i <= j < i + length cs)%nat)).
Proof.
  intros Hcs. revert i. induction Hcs as [|c cs Hc Hcs IH]; intros i.
  - exists 0%nat. simpl. split; [reflexivity | split; [lia|]]. left.
    split; [reflexivity | split; [reflexivity|]]. intros j o Hj. lia.
  - cbn [emit_chunks]. unfold nonblank in Hc. rewrite Hc. unfold attempt.
    destruct (f i CallStrip) as [e|] eqn:Hstrip.
    { exists 0%nat. simpl. split; [reflexivity | split; [lia|]]. right.
      exists e, i, CallStrip. repeat split; simpl; (assumption || lia). }
    destruct (f i CallDumps) as [e|] eqn:Hdumps.
    { exists 0%nat. simpl. split; [reflexivity | split; [lia|]]. right.
      exists e, i, CallDumps. repeat split; simpl; (assumption || lia). }
    destruct (f i CallSleep) as [e|] eqn:Hsleep.
    { exists 1%nat. simpl. split; [reflexivity | split; [lia|]]. right.
      exists e, i, CallSleep. repeat split; simpl; (assumption || lia). }
    destruct (IH (S i)) as (k & Hout & Hk & Hend).
    exists (S k). unfold gbind, gret, gyield. cbn [app].
    destruct (emit_chunks f (S i) cs) as [out r]. cbn [fst snd] in *.
    split; [simpl; rewrite Hout; reflexivity | split; [simpl; lia|]].
    destruct Hend as [(Hr & Hlen & Hnone) | (e & j & o & Hr & Hf & Hj)].
    + left. split; [assumption | split; [simpl; lia|]]. intros j o Hj.
      destruct (Nat.eq_dec j i) as [->|Hne].
      * destruct o; assumption.
      * apply Hnone. simpl in Hj. lia.
    + right. exists e, j, o. split; [assumption | split; [assumption|]].
      simpl. lia.
Qed.

Lemma generate_shape (f : faults) (cs : list pystr) :
  Forall nonblank cs ->
  exists k t,
    generate f cs = map delta_frame (firstn k cs) ++ [t] /\
    ((t = done_frame /\ k = length cs /\
      forall j o, (j < length cs)%nat -> f j o = None)
     \/
     (exists e j o, t = error_frame e /\ f j o = Some e /\
                    (j < length cs)%nat /\ (k <= length cs)%nat)).
Proof.
  intros Hcs. destruct (emit_chunks_shape f cs 0 Hcs) as (k & Hout & Hk & Hend).
  unfold generate, generate_gen, gtry, gbind, gyield.
  destruct (emit_chunks f 0 cs) as [out r]. cbn [fst snd] in *.
  destruct Hend as [(Hr & Hlen & Hnone) | (e & j & o & Hr & Hf & Hj)]; subst r.
  - exists k, done_frame. simpl. rewrite Hout. split; [reflexivity|]. left.
    split; [reflexivity | split; [assumption|]]. intros j o Hj. apply Hnone. lia.
  - exists k, (error_frame e). simpl. rewrite Hout. split; [reflexivity|]. right.
    exists e, j, o. repeat split; (assumption || lia).
Qed.

Lemma generate_no_faults (cs : list pystr) :
  Forall nonblank cs ->
  generate no_faults cs = map delta_frame cs ++ [done_frame].
Proof.
  intros Hcs.
  destruct (generate_shape no_faults cs Hcs)
    as (k & t & Hgen & [(-> & -> & _) | (e & j & o & _ & Hf & _)]).
  - rewrite Hgen, firstn_all. reflexivity.
  - discriminate.
Qed.

Lemma filter_delta_frames (cs : list pystr) :
  filter is_content_delta (map delta_frame cs) = map delta_frame cs.
Proof.
  induction cs as [|c cs IH]; [reflexivity|].
  cbn [map filter]. rewrite delta_frame_is_delta, IH. reflexivity.
Qed.

Lemma concat_trailing_space (cs : list pystr) :
  cs <> [] ->
  concat (map (fun c => c ++ [space]) cs) = join [space] cs ++ [space].
Proof.
  induction cs as [|c cs IH]; [congruence|]. intros _.
  destruct cs as [|c' cs]; [simpl; rewrite app_nil_r; reflexivity|].
  rewrite join_cons by discriminate.
  change (concat (map (fun c => c ++ [space]) (c :: c' :: cs)))
    with ((c ++ [space]) ++ concat (map (fun c => c ++ [space]) (c' :: cs))).
  rewrite IH by discriminate.
  rewrite <- !app_assoc. reflexivity.
Qed.

End Emitter.

(** C9 (implicit chunk invariant): every chunk is a single-space join of one
    or more white-space-free, non-empty words, is non-empty and is its own
    [strip]; so the emitter skips none and a run without faults yields one
    content-delta frame per chunk, then the sentinel. *)
Theorem chunks_never_blank (text : pystr) (N : Z) :
  1 <= N ->
  Forall (fun c => c <> [] /\ strip c = c /\
                   exists ws, ws <> [] /\ Forall is_word ws /\ c = join [space] ws)
         (chunk_text text N) /\
  generate no_faults (chunk_text text N)
  = map delta_frame (chunk_text text N) ++ [done_frame] /\
  length (filter is_content_delta (generate no_faults (chunk_text text N)))
  = length (chunk_text text N).
Proof.
  intros _.
  assert (Hgen : generate no_faults (chunk_text text N)
                 = map delta_frame (chunk_text text N) ++ [done_frame]).
  { apply generate_no_faults.
    eapply Forall_impl; [|apply chunk_text_trimmed]. apply trimmed_nonblank. }
  split; [|split; [exact Hgen|]].
  - eapply Forall_impl; [|apply chunk_text_joined_words].
    intros c (ws & Hne & Hws & Hc).
    assert (Ht : trimmed c) by (rewrite Hc; apply join_trimmed; assumption).
    destruct (trimmed_strip c Ht) as [Hs Hn]. split; [exact Hn | split; [exact Hs|]].
    exists ws. auto.
  - rewrite Hgen, filter_app, filter_delta_frames. simpl.
    rewrite length_app, length_map. simpl. lia.
Qed.

Lemma chunks_never_blank_witness :
  Forall (fun c => c <> [] /\ strip c = c /\
                   exists ws, ws <> [] /\ Forall is_word ws /\ c = join [space] ws)
         (chunk_text (py " one two  three ") 7) /\
  generate no_faults (chunk_text (py " one two  three ") 7)
  = map delta_frame (chunk_text (py " one two  three ") 7) ++ [done_frame] /\
  length (filter is_content_delta
            (generate no_faults (chunk_text (py " one two  three ") 7)))
  = length (chunk_text (py " one two  three ") 7).
Proof. apply (chunks_never_blank (py " one two  three ") 7). lia. Defined.

(** ** The endpoint *)

Section Endpoint.

Variable v : variant.

(** On a non-empty dict with a string prompt the [try] block is the chain
    of the three remaining checks. *)
Lemma try_stream_dict (d : list (pystr * pyval)) (p : pystr) :
  d <> [] -> prompt_of d = PStr p ->
  try_stream v (Returns (PDict d))
  = if negb (truthy (strip p)) then Ok (bad_request empty_prompt_frame)
    else if len (strip p) >? 5000 then Ok (bad_request (too_long_frame v))
    else if negb (truth (stream_of d)) then Ok (bad_request no_stream_frame)
    else Ok (streaming (chunk_text (synthesize v (strip p)) 150)).
Proof.
  intros Hd Hp. unfold try_stream. cbn [get_json bind truth].
  destruct d as [|kv d]; [congruence|]. cbn [truthy negb].
  change (py_get (PDict (kv :: d)) (py "prompt") (PStr []))
    with (@Ok pyval (prompt_of (kv :: d))).
  change (py_get (PDict (kv :: d)) (py "stream") (PBool false))
    with (@Ok pyval (stream_of (kv :: d))).
  rewrite Hp. reflexivity.
Qed.

Lemma prompt_needs_items (d : list (pystr * pyval)) (p : pystr) :
  prompt_of d = PStr p -> strip p <> [] -> d <> [].
Proof.
  intros Hp Hs ->. unfold prompt_of in Hp. simpl in Hp.
  injection Hp as <-. apply Hs. reflexivity.
Qed.

Lemma rejected_response (r : get_json_result) (e : ValidationError) :
  rejected r e -> handle_post v r = bad_request (validation_frame v e).
Proof.
  intros H. unfold handle_post.
  destruct H as [data Hfalse | d p Hd Hp Hs | d p Hd Hp Hs Hlen
                 | d p Hd Hp Hs Hlen Hstream].
  - unfold try_stream. cbn [get_json bind]. rewrite Hfalse. reflexivity.
  - rewrite (try_stream_dict d p Hd Hp), Hs. reflexivity.
  - rewrite (try_stream_dict d p Hd Hp).
    apply truthy_true in Hs. rewrite Hs. cbn [negb].
    apply Z.gtb_lt in Hlen. rewrite Hlen. reflexivity.
  - rewrite (try_stream_dict d p Hd Hp).
    apply truthy_true in Hs. rewrite Hs. cbn [negb].
    assert (Hle : (len (strip p) >? 5000) = false)
      by (rewrite Z.gtb_ltb; apply Z.ltb_ge; lia).
    rewrite Hle, Hstream. reflexivity.
Qed.

Lemma accepted_response (r : get_json_result) (prompt : pystr) :
  accepted r prompt ->
  handle_post v r = streaming (chunk_text (synthesize v prompt) 150).
Proof.
  intros (d & p & -> & Hp & -> & Hs & Hlen & Hstream). unfold handle_post.
  rewrite (try_stream_dict d p (prompt_needs_items d p Hp Hs) Hp).
  apply truthy_true in Hs. rewrite Hs. cbn [negb].
  assert (Hle : (len (strip p) >? 5000) = false)
    by (rewrite Z.gtb_ltb; apply Z.ltb_ge; lia).
  rewrite Hle, Hstream. reflexivity.
Qed.

(** A dict with a string prompt (or none) is rejected or accepted. *)
Lemma dict_rejected_or_accepted (d : list (pystr * pyval)) (p : pystr) :
  prompt_of d = PStr p ->
  (exists e, rejected (Returns (PDict d)) e) \/
  accepted (Returns (PDict d)) (strip p).
Proof.
  intros Hp.
  assert (Hcase : d = [] \/ d <> [])
    by (destruct d; [left; reflexivity | right; discriminate]).
  destruct Hcase as [-> | Hne].
  { left. exists MissingBody. constructor. reflexivity. }
  destruct (strip p) as [|c s] eqn:Hs.
  { left. exists EmptyPrompt. apply (rejected_empty d p); assumption. }
  assert (Hs' : strip p <> []) by (rewrite Hs; discriminate).
  rewrite <- Hs.
  destruct (Z_lt_le_dec 5000 (len (strip p))) as [Hlong | Hshort].
  { left. exists PromptTooLong. apply (rejected_long d p); assumption. }
  destruct (truth (stream_of d)) eqn:Hstream.
  - right. exists d, p. auto 10.
  - left. exists StreamingRequired. apply (rejected_stream d p); assumption.
Qed.

(** The literal frames are what [json.dumps] would have written. *)
Lemma validation_frame_json (e : ValidationError) :
  validation_frame v e
  = sse (dumps (JDict [(py "error", JStr (error_text v e)); (py "code", JInt 400)])).
Proof. destruct v, e; vm_compute; reflexivity. Qed.

Lemma validation_frame_one_line (e : ValidationError) :
  data_lines (validation_frame v e)
  = [py "data: "
     ++ dumps (JDict [(py "error", JStr (error_text v e)); (py "code", JInt 400)])] /\
  is_content_delta (validation_frame v e) = false.
Proof. destruct v, e; vm_compute; split; reflexivity. Qed.

(** The synthesized content always has a first word. *)
Lemma synthesize_has_words (prompt : pystr) : split (synthesize v prompt) <> [].
Proof.
  assert (H : exists rest, synthesize v prompt = py "Based" ++ space :: rest).
  { destruct v; eexists; reflexivity. }
  destruct H as [rest ->]. rewrite split_app_space by reflexivity.
  simpl. discriminate.
Qed.

End Endpoint.

(** When [get_json] itself raises, the outer handler answers with 500. *)
Example unreadable_body_server_error (v : variant) (e : pystr) :
  status (handle_post v (Raises e)) = 500 /\
  response_body (handle_post v (Raises e))
  = Static (sse (dumps (error_response e))).
Proof. split; reflexivity. Qed.

(** C5 (validator error mapping), as the code has it: the four checks run in
    order and the first that fires answers. [MissingBody] answers every
    falsy document ([null], [false], [0], an empty string, list or object);
    otherwise, on an object whose prompt is a string (or absent, read as
    empty), [EmptyPrompt] answers a prompt that is empty after trimming,
    [PromptTooLong] a trimmed prompt of more than 5000 characters,
    [StreamingRequired] a falsy or absent [stream]; every other such object
    passes and is streamed. *)
Theorem validator_first_match (v : variant) (r : get_json_result) :
  (forall e, rejected r e -> handle_post v r = bad_request (validation_frame v e)) /\
  (forall prompt, accepted r prompt ->
     handle_post v r = streaming (chunk_text (synthesize v prompt) 150)) /\
  (forall d p, r = Returns (PDict d) -> prompt_of d = PStr p ->
     (exists e, rejected r e) \/ accepted r (strip p)).
Proof.
  split; [|split].
  - intros e. apply rejected_response.
  - intros prompt. apply accepted_response.
  - intros d p -> Hp. apply dict_rejected_or_accepted, Hp.
Qed.

Lemma validator_first_match_witness :
  handle_post VApp (Returns (PDict [])) = bad_request no_body_frame /\
  handle_post VApi
    (Returns (PDict [(py "prompt", PStr (py "   ")); (py "stream", PBool true)]))
  = bad_request empty_prompt_frame /\
  handle_post VApp explain_request
  = streaming (chunk_text (synthesize VApp explain_prompt) 150).
Proof.
  split; [|split].
  - apply (proj1 (validator_first_match VApp (Returns (PDict []))) MissingBody).
    apply rejected_missing. reflexivity.
  - apply (proj1 (validator_first_match VApi
                    (Returns (PDict [(py "prompt", PStr (py "   "));
                                     (py "stream", PBool true)])))
                 EmptyPrompt).
    apply (rejected_empty _ (py "   ")); [discriminate | reflexivity | reflexivity].
  - apply (proj1 (proj2 (validator_first_match VApp explain_request))
                 explain_prompt).
    exists [(py "prompt", PStr explain_prompt); (py "stream", PBool true)],
           explain_prompt.
    repeat split; try reflexivity; try discriminate.
Defined.

(** C5 as stated fails: a prompt of 5000 letters and one trailing space has
    5001 characters, yet it is trimmed before it is measured and the request
    passes. *)
Lemma validator_mapping_counterexample :
  len padded_prompt = 5001 /\
  status (handle_post VApp padded_request) = 200 /\
  ~ validator_mapping_as_stated VApp padded_request.
Proof.
  assert (Hlen : len padded_prompt = 5001) by (vm_compute; reflexivity).
  assert (Hok : status (handle_post VApp padded_request) = 200)
    by (vm_compute; reflexivity).
  split; [exact Hlen | split; [exact Hok|]].
  intros (_ & _ & Hlong & _).
  assert (Hp : prompt_of [(py "prompt", PStr padded_prompt); (py "stream", PBool true)]
               = PStr padded_prompt) by reflexivity.
  specialize (Hlong _ padded_prompt eq_refl Hp).
  rewrite Hlong in Hok by lia. discriminate Hok.
Qed.

(** C6 as stated fails on the same request: its prompt has 5001 characters,
    which the taxonomy as stated counts as too long, and the answer is status
    200 with a generated body. *)
Lemma validation_framing_counterexample :
  invalid_as_stated padded_request /\
  status (handle_post VApp padded_request) = 200 /\
  ~ validation_framing_as_stated VApp padded_request.
Proof.
  assert (Hlen : 5000 < len padded_prompt) by (vm_compute; reflexivity).
  assert (Hok : status (handle_post VApp padded_request) = 200)
    by (vm_compute; reflexivity).
  assert (Hinv : invalid_as_stated padded_request).
  { right. right. left.
    exists [(py "prompt", PStr padded_prompt); (py "stream", PBool true)],
           padded_prompt.
    split; [reflexivity | split; [reflexivity | right; exact Hlen]]. }
  split; [exact Hinv | split; [exact Hok|]].
  intros H. destruct (H Hinv) as [H400 _]. rewrite Hok in H400. discriminate H400.
Qed.

(** C6 (validation failure framing), as the code has it: a request that one
    of the four checks rejects (a falsy document; else a prompt empty after
    trimming; else a trimmed prompt of more than 5000 characters; else a
    falsy or absent [stream]) is answered with status 400, content type
    [text/event-stream] and a fixed body that is one [data:] line carrying
    [{error, code: 400}]; the body is not a generator and its line is no
    content delta. *)
Theorem validation_failure_single_frame
  (v : variant) (r : get_json_result) (e : ValidationError) :
  rejected r e ->
  let payload :=
    dumps (JDict [(py "error", JStr (error_text v e)); (py "code", JInt 400)]) in
  response_body (handle_post v r) = Static (py "data: " ++ payload ++ [newline; newline]) /\
  status (handle_post v r) = 400 /\
  content_type (handle_post v r) = py "text/event-stream" /\
  data_lines (py "data: " ++ payload ++ [newline; newline]) = [py "data: " ++ payload] /\
  is_content_delta (py "data: " ++ payload ++ [newline; newline]) = false.
Proof.
  intros H payload. rewrite (rejected_response v r e H).
  pose proof (validation_frame_json v e) as Hj.
  pose proof (validation_frame_one_line v e) as [Hl Hd].
  unfold sse in Hj. fold payload in Hj, Hl. rewrite Hj in Hl, Hd.
  cbn [bad_request response_body status content_type]. rewrite Hj.
  repeat split; assumption.
Qed.

Lemma validation_failure_single_frame_witness :
  response_body (handle_post VApp (Returns (PDict [])))
  = Static no_body_frame /\
  status (handle_post VApp (Returns (PDict []))) = 400.
Proof.
  destruct (validation_failure_single_frame VApp (Returns (PDict [])) MissingBody)
    as (Hb & Hs & _).
  - apply rejected_missing. reflexivity.
  - split; [exact Hb | exact Hs].
Defined.





(** C8 (delta frame shape): in the fault-free stream of an accepted request
    the i-th frame is [data: ] followed by the JSON text of
    [{choices: [{delta: {content: c}}]}] and a blank line, where [c] is the
    i-th chunk with one space appended; the sentinel follows; and the
    content fields, concatenated in order, are the words of the synthesized
    content joined with single spaces, plus one trailing space. *)
Theorem delta_frames_shape (v : variant) (r : get_json_result) (prompt : pystr) :
  accepted r prompt ->
  let chunks := chunk_text (synthesize v prompt) 150 in
  let delta c :=
    JDict [(py "choices",
            JList [JDict [(py "delta",
                           JDict [(py "content", JStr (c ++ [space]))])]])] in
  response_body (handle_post v r) = Stream chunks /\
  generate no_faults chunks
  = map (fun c => py "data: " ++ dumps (delta c) ++ [newline; newline]) chunks
    ++ [py "data: [DONE]" ++ [newline; newline]] /\
  (forall c, content_of (delta c) = c ++ [space]) /\
  concat (map (fun c => content_of (delta c)) chunks)
  = join [space] (split (synthesize v prompt)) ++ [space].
Proof.
  intros Hacc chunks delta.
  assert (Hnb : Forall nonblank chunks).
  { eapply Forall_impl; [|apply chunk_text_trimmed]. apply trimmed_nonblank. }
  rewrite (accepted_response v r prompt Hacc).
  split; [reflexivity | split; [|split]].
  - rewrite (generate_no_faults chunks Hnb). reflexivity.
  - intros c. reflexivity.
  - change (map (fun c => content_of (delta c)) chunks)
      with (map (fun c => c ++ [space]) chunks).
    assert (Hne : chunks <> []).
    { unfold chunks.
      destruct (chunk_text_groups 150 (synthesize v prompt)) as (gs & -> & _ & Hcat).
      intros Hmap. apply map_eq_nil in Hmap. subst gs.
      apply (synthesize_has_words v prompt). rewrite <- Hcat. reflexivity. }
    rewrite (concat_trailing_space chunks Hne). f_equal.
    unfold chunks.
    destruct (chunk_text_groups 150 (synthesize v prompt)) as (gs & -> & Hgs & <-).
    apply join_groups, Hgs.
Qed.

Lemma delta_frames_shape_witness :
  response_body (handle_post VApi explain_request)
  = Stream (chunk_text (Api.generate_streaming_content explain_prompt) 150) /\
  concat (map (fun c => c ++ [space])
              (chunk_text (Api.generate_streaming_content explain_prompt) 150))
  = join [space] (split (Api.generate_streaming_content explain_prompt)) ++ [space].
Proof.
  destruct (delta_frames_shape VApi explain_request explain_prompt)
    as (Hbody & _ & _ & Hcat).
  - exists [(py "prompt", PStr explain_prompt); (py "stream", PBool true)],
           explain_prompt.
    repeat split; try reflexivity; try discriminate.
  - split; [exact Hbody | exact Hcat].
Defined.

(** ** Calibration of the synthesized content *)

Section Counting.

Variable chunk_size : Z.

(** The chunk count depends on the words only through their lengths. *)
Lemma flush_count (ws : list pystr) (st : chunker) :
  length (flush (chunk_words chunk_size st ws))
  = (length (chunks st)
     + count_from chunk_size (truthy (current_chunk st)) (current_length st)
                  (map len ws))%nat.
Proof.
  revert st. induction ws as [|w ws IH]; intros st.
  - unfold flush. simpl. destruct (truthy (current_chunk st)).
    + rewrite length_app. reflexivity.
    + lia.
  - rewrite chunk_words_cons, IH. unfold chunk_step. cbn [map count_from].
    destruct ((current_length st + len w >? chunk_size) && truthy (current_chunk st));
      cbn [chunks current_chunk current_length truthy].
    + rewrite length_app. simpl. lia.
    + destruct (current_chunk st); reflexivity.
Qed.

(** Once the counter is over the cap its value no longer matters. *)
Lemma count_from_saturated (cl cl' l : Z) (r : list Z) :
  chunk_size < cl + l -> chunk_size < cl' + l ->
  count_from chunk_size true cl (l :: r) = count_from chunk_size true cl' (l :: r).
Proof.
  intros H H'. apply Z.gtb_lt in H, H'. simpl. rewrite H, H'. reflexivity.
Qed.

Lemma chunk_words_length_nonneg (ws : list pystr) (st : chunker) :
  0 <= current_length st -> 0 <= current_length (chunk_words chunk_size st ws).
Proof.
  revert st. induction ws as [|w ws IH]; intros st H; [exact H|].
  rewrite chunk_words_cons. apply IH. pose proof (len_nonneg w).
  unfold chunk_step.
  destruct ((current_length st + len w >? chunk_size) && truthy (current_chunk st));
    simpl; lia.
Qed.

End Counting.

Lemma sum_len_app (a b : list pystr) : sum_len (a ++ b) = sum_len a + sum_len b.
Proof. induction a as [|x a IH]; simpl; [reflexivity | rewrite IH; lia]. Qed.

Lemma sum_len_nonneg (a : list pystr) : 0 <= sum_len a.
Proof.
  induction a as [|x a IH]; simpl; [lia | pose proof (len_nonneg x); lia].
Qed.

Lemma sum_len_join (sep : pystr) (g : list pystr) : sum_len g <= len (join sep g).
Proof.
  induction g as [|x g IH]; [unfold len; simpl; lia|].
  destruct g as [|y g]; [simpl; lia|].
  rewrite join_cons by discriminate. rewrite !len_app.
  pose proof (len_nonneg sep). change (sum_len (x :: y :: g))
    with (len x + sum_len (y :: g)). lia.
Qed.

(** The chunks hold at least the characters of the words. *)
Lemma total_chars_words (text : pystr) (chunk_size : Z) :
  sum_len (split text) <= total_chars (chunk_text text chunk_size).
Proof.
  destruct (chunk_text_groups chunk_size text) as (gs & -> & _ & <-).
  induction gs as [|g gs IH]; simpl; [lia|].
  rewrite sum_len_app. pose proof (sum_len_join [space] g). lia.
Qed.

(** A bound on the chunk count checked for every counter value up to the
    cap holds for every counter value. *)
Lemma count_from_checked (n : nat) (l : Z) (r : list Z) :
  0 < l ->
  forallb (fun k => (n <=? count_from 150 true (Z.of_nat k) (l :: r))%nat)
          (seq 0 151) = true ->
  forall cl, 0 <= cl -> (n <= count_from 150 true cl (l :: r))%nat.
Proof.
  intros Hl Hall cl Hcl. rewrite forallb_forall in Hall.
  destruct (Z_le_gt_dec cl 150) as [Hle | Hgt].
  - specialize (Hall (Z.to_nat cl)). rewrite Z2Nat.id in Hall by assumption.
    apply Nat.leb_le, Hall, in_seq. lia.
  - rewrite (count_from_saturated 150 cl 150) by lia.
    specialize (Hall 150%nat). apply Nat.leb_le, Hall, in_seq. lia.
Qed.

Section Calibration.

Variable head tail : pystr.
Variable tail_words : list pystr.

Hypothesis head_word : exists rest, head = py "Based" ++ space :: rest.
Hypothesis tail_split : exists t, tail = py "'," ++ space :: t /\ split t = tail_words.

Lemma split_content (prompt : pystr) :
  exists first_words,
    first_words <> [] /\
    split (head ++ prompt ++ tail) = first_words ++ tail_words.
Proof.
  destruct head_word as [rest ->]. destruct tail_split as (t & -> & <-).
  exists (split ((py "Based" ++ space :: rest) ++ prompt ++ py "',")). split.
  - assert (E : (py "Based" ++ space :: rest) ++ prompt ++ py "',"
                = py "Based" ++ space :: (rest ++ prompt ++ py "',"))
      by (rewrite <- app_assoc; reflexivity).
    rewrite E, split_app_space by reflexivity. simpl. discriminate.
  - rewrite <- (split_app_space space) by reflexivity. f_equal.
    rewrite <- !app_assoc. reflexivity.
Qed.

Lemma content_total_chars (prompt : pystr) :
  sum_len tail_words <= total_chars (chunk_text (head ++ prompt ++ tail) 150).
Proof.
  destruct (split_content prompt) as (first_words & _ & Hsplit).
  pose proof (total_chars_words (head ++ prompt ++ tail) 150) as H.
  rewrite Hsplit, sum_len_app in H. pose proof (sum_len_nonneg first_words). lia.
Qed.

Variable n : nat.

Hypothesis tail_checked :
  exists l r, map len tail_words = l :: r /\ 0 < l /\
    forallb (fun k => (n <=? count_from 150 true (Z.of_nat k) (l :: r))%nat)
            (seq 0 151) = true.

Lemma content_chunk_count (prompt : pystr) :
  (n <= length (chunk_text (head ++ prompt ++ tail) 150))%nat.
Proof.
  destruct (split_content prompt) as (first_words & Hne & Hsplit).
  destruct tail_checked as (l & r & Hlens & Hl & Hall).
  unfold chunk_text. rewrite Hsplit, chunk_words_app, flush_count.
  set (st := chunk_words 150 chunk_init first_words).
  assert (Hopen : current_chunk st <> [])
    by (apply chunk_words_open; right; exact Hne).
  assert (Hcl : 0 <= current_length st)
    by (apply chunk_words_length_nonneg; simpl; lia).
  apply truthy_true in Hopen. rewrite Hopen, Hlens.
  pose proof (count_from_checked n l r Hl Hall (current_length st) Hcl). lia.
Qed.

End Calibration.

Lemma api_tail_checked :
  exists l r, map len api_tail_words = l :: r /\ 0 < l /\
    forallb (fun k => (18 <=? count_from 150 true (Z.of_nat k) (l :: r))%nat)
            (seq 0 151) = true.
Proof. eexists. eexists. split; [vm_compute; reflexivity|]. split; vm_compute; reflexivity. Qed.

Lemma app_tail_checked :
  exists l r, map len app_tail_words = l :: r /\ 0 < l /\
    forallb (fun k => (8 <=? count_from 150 true (Z.of_nat k) (l :: r))%nat)
            (seq 0 151) = true.
Proof. eexists. eexists. split; [vm_compute; reflexivity|]. split; vm_compute; reflexivity. Qed.

Lemma api_tail_split :
  exists t, unlines Api.body_lines = py "'," ++ space :: t /\ split t = api_tail_words.
Proof. eexists. split; [vm_compute; reflexivity | vm_compute; reflexivity]. Qed.

Lemma app_tail_split :
  exists t, unlines App.body_lines = py "'," ++ space :: t /\ split t = app_tail_words.
Proof. eexists. split; [vm_compute; reflexivity | vm_compute; reflexivity]. Qed.

(** X7 (calibration of [streaming_llm_api.py]): the variant of
    [streaming_llm_api.py] meets the calibration for every prompt, of any
    length: at least 18 chunks and more than 1375 characters. *)
Lemma api_calibration (prompt : pystr) :
  (18 <= length (chunk_text (Api.generate_streaming_content prompt) 150))%nat /\
  1375 < total_chars (chunk_text (Api.generate_streaming_content prompt) 150).
Proof.
  assert (Hhead : exists rest, Api.prefix = py "Based" ++ space :: rest)
    by (eexists; reflexivity).
  unfold Api.generate_streaming_content. split.
  - apply (content_chunk_count Api.prefix (unlines Api.body_lines) api_tail_words
             Hhead api_tail_split 18%nat api_tail_checked).
  - pose proof (content_total_chars Api.prefix (unlines Api.body_lines) api_tail_words
                  Hhead api_tail_split prompt) as H.
    assert (Hsum : sum_len api_tail_words = 2332) by (vm_compute; reflexivity).
    lia.
Qed.

(** X8 (chunk count of [src/app.py]): the variant of [src/app.py] always
    yields at least 8 chunks. *)
Lemma app_chunk_count (prompt : pystr) :
  (8 <= length (chunk_text (App.generate_streaming_content prompt) 150))%nat.
Proof.
  assert (Hhead : exists rest, App.prefix = py "Based" ++ space :: rest)
    by (eexists; reflexivity).
  unfold App.generate_streaming_content.
  apply (content_chunk_count App.prefix (unlines App.body_lines) app_tail_words
           Hhead app_tail_split 8%nat app_tail_checked).
Qed.

(** C1 (calibration), evaluated on [src/app.py] at the prompt of the
    specification's own end-to-end example: 22 characters in, 9 chunks and
    1235 characters out, which is not more than 1375 (nor is it with the
    space the emitter appends to each chunk). *)
Theorem app_calibration_falls_short :
  len explain_prompt = 22 /\
  length (chunk_text (App.generate_streaming_content explain_prompt) 150) = 9%nat /\
  total_chars (chunk_text (App.generate_streaming_content explain_prompt) 150) = 1235 /\
  total_chars (map (fun c => c ++ [space])
                   (chunk_text (App.generate_streaming_content explain_prompt) 150))
  = 1244.
Proof. repeat split; vm_compute; reflexivity. Qed.

(** * More of the chunker *)

Section Retokenize.

Lemma split_from_word (w rest word : pystr) :
  forallb (fun c => negb (isspace c)) w = true ->
  split_from word (w ++ rest) = split_from (word ++ w) rest.
Proof.
  revert word. induction w as [|c w IH]; intros word Hw; simpl.
  - rewrite app_nil_r. reflexivity.
  - simpl in Hw. apply andb_true_iff in Hw as [Hc Hw].
    apply negb_true_iff in Hc. rewrite Hc, IH by assumption.
    rewrite <- app_assoc. reflexivity.
Qed.

(** Splitting the single-space join of words gives the words back. *)
Lemma split_join (ws : list pystr) :
  Forall is_word ws -> split (join [space] ws) = ws.
Proof.
  induction 1 as [|w ws [Hne Hw] Hws IH]; [reflexivity|].
  unfold split in *. destruct ws as [|w' ws].
  - simpl join. rewrite <- (app_nil_r w) at 1.
    rewrite split_from_word by assumption. simpl.
    destruct w; [congruence | reflexivity].
  - rewrite join_cons by discriminate.
    rewrite split_from_word by assumption.
    change ([space] ++ join [space] (w' :: ws))
      with (space :: join [space] (w' :: ws)).
    cbn [split_from app]. change (isspace space) with true. cbv iota.
    destruct w; [congruence|]. cbn [truthy]. rewrite IH. reflexivity.
Qed.

Lemma concat_groups_words (gs : list (list pystr)) :
  Forall is_word (concat gs) ->
  map split (map (join [space]) gs) = gs.
Proof.
  induction gs as [|g gs IH]; intros H; [reflexivity|].
  simpl in H. apply Forall_app in H as [Hg Hgs].
  simpl. rewrite split_join, IH by assumption. reflexivity.
Qed.

Lemma split_normalized (text : pystr) :
  split (join [space] (split text)) = split text.
Proof. apply split_join, split_words. Qed.

End Retokenize.

(** X1 (words kept): splitting every chunk back into words gives the words of
    the text, in order: no word is cut, dropped, repeated or moved. *)
Theorem chunk_text_retokenized (text : pystr) (chunk_size : Z) :
  concat (map split (chunk_text text chunk_size)) = split text.
Proof.
  destruct (chunk_text_groups chunk_size text) as (gs & -> & _ & Hcat).
  rewrite concat_groups_words; [exact Hcat|].
  rewrite Hcat. apply split_words.
Qed.

(** X2 (idempotence): chunking sees the text only through its words: the
    single-space form of the text, and the chunks joined back with single
    spaces, are cut into the same chunks. *)
Theorem chunk_text_idempotent (text : pystr) (chunk_size : Z) :
  chunk_text (join [space] (split text)) chunk_size = chunk_text text chunk_size /\
  chunk_text (join [space] (chunk_text text chunk_size)) chunk_size
  = chunk_text text chunk_size.
Proof.
  assert (H1 : chunk_text (join [space] (split text)) chunk_size
               = chunk_text text chunk_size).
  { unfold chunk_text. rewrite split_normalized. reflexivity. }
  split; [exact H1|].
  destruct (chunk_text_groups chunk_size text) as (gs & Hc & Hne & Hcat).
  rewrite Hc at 1. rewrite (join_groups [space] gs Hne), Hcat. exact H1.
Qed.

Section SmallAndLargeCaps.

Variable chunk_size : Z.

Lemma one_word_per_chunk (ws : list pystr) (st : chunker) (w0 : pystr) :
  chunk_size <= 0 -> Forall is_word ws ->
  current_chunk st = [w0] -> 0 <= current_length st ->
  flush (chunk_words chunk_size st ws) = chunks st ++ w0 :: ws.
Proof.
  intros Hcap Hws. revert st w0.
  induction Hws as [|w ws [Hne _] Hws IH]; intros st w0 Hcur Hcl.
  - unfold flush. simpl. rewrite Hcur. reflexivity.
  - rewrite chunk_words_cons. unfold chunk_step. rewrite Hcur. cbn [truthy].
    assert (Hlen : 0 < len w).
    { pose proof (len_nonneg w). destruct (Z.eq_dec (len w) 0) as [E|E];
        [apply len_nil_iff in E; congruence | lia]. }
    assert (Hgt : (current_length st + len w >? chunk_size) = true)
      by (apply Z.gtb_lt; lia).
    rewrite Hgt. cbn [andb].
    rewrite (IH _ w); [| reflexivity | simpl; lia].
    cbn [chunks join]. rewrite <- app_assoc. reflexivity.
Qed.

Lemma len_join_prefix (sep : pystr) (a b : list pystr) :
  len (join sep a) <= len (join sep (a ++ b)).
Proof.
  destruct b as [|y b]; [rewrite app_nil_r; lia|].
  destruct a as [|x a]; [simpl app; apply len_nonneg|].
  rewrite join_app by discriminate. rewrite !len_app.
  pose proof (len_nonneg sep). pose proof (len_nonneg (join sep (y :: b))). lia.
Qed.

Lemma one_chunk (ws : list pystr) (st : chunker) :
  chunks st = [] -> current_chunk st <> [] ->
  current_length st = len (join [space] (current_chunk st)) + 1 ->
  len (join [space] (current_chunk st ++ ws)) <= chunk_size ->
  flush (chunk_words chunk_size st ws) = [join [space] (current_chunk st ++ ws)].
Proof.
  revert st. induction ws as [|w ws IH]; intros st Hch Hne Hcl Hfit.
  - unfold flush. simpl. rewrite Hch, app_nil_r.
    destruct (current_chunk st); [congruence | reflexivity].
  - rewrite chunk_words_cons.
    assert (Hstep : len (join [space] (current_chunk st ++ [w])) <= chunk_size).
    { pose proof (len_join_prefix [space] (current_chunk st ++ [w]) ws) as H.
      rewrite <- app_assoc in H. simpl in H. lia. }
    assert (Hj : len (join [space] (current_chunk st ++ [w]))
                 = len (join [space] (current_chunk st)) + 1 + len w).
    { rewrite join_app by (assumption || discriminate). rewrite !len_app.
      simpl join. change (len [space]) with 1. lia. }
    assert (Hgt : (current_length st + len w >? chunk_size) = false)
      by (rewrite Z.gtb_ltb; apply Z.ltb_ge; lia).
    unfold chunk_step. rewrite Hgt. cbn [andb].
    rewrite IH; cbn [chunks current_chunk current_length].
    + rewrite <- app_assoc. reflexivity.
    + assumption.
    + destruct (current_chunk st); discriminate.
    + lia.
    + rewrite <- app_assoc. exact Hfit.
Qed.

End SmallAndLargeCaps.

(** X5 (cap of zero or less): with a cap of zero or less every word is a chunk
    of its own. *)
Theorem chunk_text_nonpositive_cap (text : pystr) (chunk_size : Z) :
  chunk_size <= 0 -> chunk_text text chunk_size = split text.
Proof.
  intros Hcap. unfold chunk_text. pose proof (split_words text) as Hws.
  destruct (split text) as [|w ws]; [reflexivity|].
  inversion Hws as [|? ? Hw Hws']; subst.
  rewrite chunk_words_cons.
  rewrite (one_word_per_chunk chunk_size ws _ w Hcap Hws').
  - unfold chunk_step. simpl. rewrite andb_false_r. reflexivity.
  - unfold chunk_step. simpl. rewrite andb_false_r. reflexivity.
  - unfold chunk_step. simpl. rewrite andb_false_r. simpl.
    pose proof (len_nonneg w). lia.
Qed.

Lemma chunk_text_nonpositive_cap_witness :
  chunk_text (py " to be  or not ") 0 = [py "to"; py "be"; py "or"; py "not"].
Proof. apply (chunk_text_nonpositive_cap (py " to be  or not ") 0). lia. Defined.

(** X6 (text that fits): a text whose single-space form fits the cap is one
    chunk: that form. *)
Theorem chunk_text_fits (text : pystr) (chunk_size : Z) :
  split text <> [] ->
  len (join [space] (split text)) <= chunk_size ->
  chunk_text text chunk_size = [join [space] (split text)].
Proof.
  intros Hne Hfit. unfold chunk_text.
  destruct (split text) as [|w ws]; [congruence|].
  rewrite chunk_words_cons.
  assert (Hstep : chunk_step chunk_size chunk_init w
                  = {| chunks := []; current_chunk := [w];
                       current_length := len w + 1 |}).
  { unfold chunk_step. simpl. rewrite andb_false_r. reflexivity. }
  rewrite Hstep. rewrite one_chunk; simpl; auto; discriminate.
Qed.

Lemma chunk_text_fits_witness :
  chunk_text (py "  to be   or not ") 12 = [py "to be or not"].
Proof.
  apply (chunk_text_fits (py "  to be   or not ") 12).
  - discriminate.
  - vm_compute. discriminate.
Defined.

Section FirstChunk.

Variable chunk_size : Z.
Variable all_words : list pystr.

Lemma flush_keeps_chunks (ws : list pystr) (st : chunker) :
  exists more, flush (chunk_words chunk_size st ws) = chunks st ++ more.
Proof.
  destruct (chunk_words_groups chunk_size ws st) as (gs & Hc & _ & _).
  unfold flush. rewrite Hc.
  destruct (truthy (current_chunk (chunk_words chunk_size st ws))).
  - rewrite <- app_assoc. eexists. reflexivity.
  - eexists. reflexivity.
Qed.

(** While no chunk is closed the counter is the length of the open chunk
    plus one, so the first chunk stays within the cap unless it is a single
    word. *)
Lemma first_chunk_run (ws : list pystr) (st : chunker) :
  incl ws all_words ->
  chunks st = [] ->
  (current_chunk st = [] /\ current_length st = 0) \/
  (current_chunk st <> [] /\
   current_length st = len (join [space] (current_chunk st)) + 1 /\
   (len (join [space] (current_chunk st)) <= chunk_size \/
    In (join [space] (current_chunk st)) all_words)) ->
  forall c rest,
    flush (chunk_words chunk_size st ws) = c :: rest ->
    len c <= chunk_size \/ In c all_words.
Proof.
  revert st. induction ws as [|w ws IH]; intros st Hincl Hch Hinv c rest Hflush.
  - unfold flush in Hflush. simpl in Hflush. rewrite Hch in Hflush.
    destruct Hinv as [[Hcur _] | (Hcur & _ & Hok)].
    + rewrite Hcur in Hflush. discriminate.
    + apply truthy_true in Hcur. rewrite Hcur in Hflush.
      injection Hflush as <- _. exact Hok.
  - assert (Hw : In w all_words) by (apply Hincl; left; reflexivity).
    assert (Hincl' : incl ws all_words)
      by (intros x Hx; apply Hincl; right; exact Hx).
    rewrite chunk_words_cons in Hflush. unfold chunk_step in Hflush.
    destruct Hinv as [[Hcur Hcl] | (Hcur & Hcl & Hok)].
    + rewrite Hcur in Hflush. cbn [truthy] in Hflush.
      rewrite andb_false_r in Hflush.
      eapply IH; [exact Hincl' | | | exact Hflush]; cbn; [assumption|].
      right. split; [discriminate|]. split; [lia | right; exact Hw].
    + destruct (current_length st + len w >? chunk_size) eqn:Hgt.
      * pose proof Hcur as Ht. apply truthy_true in Ht.
        rewrite Ht in Hflush. cbn [andb] in Hflush.
        match type of Hflush with
        | flush (chunk_words _ ?s _) = _ =>
            destruct (flush_keeps_chunks ws s) as [more Hmore]
        end.
        rewrite Hmore in Hflush. cbn [chunks] in Hflush. rewrite Hch in Hflush.
        injection Hflush as <- _. exact Hok.
      * cbn [andb] in Hflush.
        rewrite Z.gtb_ltb in Hgt. apply Z.ltb_ge in Hgt.
        assert (Hj : len (join [space] (current_chunk st ++ [w]))
                     = len (join [space] (current_chunk st)) + 1 + len w).
        { rewrite join_app by (assumption || discriminate). rewrite !len_app.
          simpl join. change (len [space]) with 1. lia. }
        eapply IH; [exact Hincl' | | | exact Hflush]; cbn; [assumption|].
        right. split; [destruct (current_chunk st); discriminate|].
        split; [lia | left; lia].
Qed.

End FirstChunk.

(** X3 (chunk sizes): the sizes the code keeps: the first chunk is within the
    cap unless it is a single word of the text, and every chunk is at most one
    character over the cap unless it is a single word of the text. *)
Theorem chunk_text_chunk_sizes (text : pystr) (chunk_size : Z) :
  match chunk_text text chunk_size with
  | [] => True
  | c :: _ => len c <= chunk_size \/ In c (split text)
  end /\
  Forall (fun c => len c <= chunk_size + 1 \/ In c (split text))
         (chunk_text text chunk_size).
Proof.
  split; [|apply chunk_text_cap_plus_one].
  destruct (chunk_text text chunk_size) as [|c rest] eqn:H; [exact I|].
  unfold chunk_text in H.
  eapply (first_chunk_run chunk_size (split text));
    [apply incl_refl | | | exact H]; [reflexivity|].
  left. split; reflexivity.
Qed.

Section Greedy.

Variable chunk_size : Z.

Lemma merge_exceeds_snoc (l : list pystr) (c c' : pystr) :
  merge_exceeds chunk_size (l ++ [c]) ->
  chunk_size < len c + 1 + len (first_word c') ->
  merge_exceeds chunk_size (l ++ [c; c']).
Proof.
  intros H Hlt. induction l as [|x l IH].
  - simpl. auto.
  - destruct l as [|y l].
    + simpl in *. destruct H as [Hx _]. auto.
    + change ((x :: y :: l) ++ [c; c']) with (x :: y :: (l ++ [c; c'])).
      change ((x :: y :: l) ++ [c]) with (x :: y :: (l ++ [c])) in H.
      destruct H as [Hx Hrest]. split; [exact Hx|]. apply IH. exact Hrest.
Qed.

Lemma merge_exceeds_last (l : list pystr) (c c2 : pystr) :
  merge_exceeds chunk_size (l ++ [c]) ->
  first_word c = first_word c2 ->
  merge_exceeds chunk_size (l ++ [c2]).
Proof.
  intros H Hfw. induction l as [|x l IH].
  - simpl. auto.
  - destruct l as [|y l].
    + simpl in *. destruct H as [Hx _]. rewrite <- Hfw. auto.
    + change ((x :: y :: l) ++ [c2]) with (x :: y :: (l ++ [c2])).
      change ((x :: y :: l) ++ [c]) with (x :: y :: (l ++ [c])) in H.
      destruct H as [Hx Hrest]. split; [exact Hx|]. apply IH. exact Hrest.
Qed.

Lemma first_word_join (w : pystr) (ws : list pystr) :
  Forall is_word (w :: ws) -> first_word (join [space] (w :: ws)) = w.
Proof. intros H. unfold first_word. rewrite split_join by assumption. reflexivity. Qed.

Lemma greedy_step (st : chunker) (w : pystr) :
  is_word w ->
  merge_exceeds chunk_size (flush st) /\
  Forall is_word (current_chunk st) /\
  (current_chunk st = [] -> chunks st = [] /\ current_length st <= 0) /\
  (current_chunk st <> [] ->
   current_length st <= len (join [space] (current_chunk st)) + 1) ->
  let st' := chunk_step chunk_size st w in
  merge_exceeds chunk_size (flush st') /\
  Forall is_word (current_chunk st') /\
  (current_chunk st' = [] -> chunks st' = [] /\ current_length st' <= 0) /\
  (current_chunk st' <> [] ->
   current_length st' <= len (join [space] (current_chunk st')) + 1).
Proof.
  intros Hw (Hm & Hcur & Hempty & Hcl). unfold chunk_step, flush in *.
  destruct (current_chunk st) as [|w0 cur] eqn:Hc.
  - destruct Hempty as [Hch Hz]; [reflexivity|].
    cbn [truthy]. rewrite andb_false_r. cbn.
    rewrite Hch. repeat split; auto; try discriminate.
    intros _. lia.
  - cbn [truthy] in *. rewrite andb_true_r.
    specialize (Hcl ltac:(discriminate)).
    destruct (current_length st + len w >? chunk_size) eqn:Hgt;
      cbn [chunks current_chunk current_length truthy].
    + apply Z.gtb_lt in Hgt. split; [|split; [|split]].
      * rewrite <- app_assoc. apply merge_exceeds_snoc; [exact Hm|].
        rewrite (first_word_join w []) by (constructor; [exact Hw | constructor]).
        lia.
      * constructor; [exact Hw | constructor].
      * discriminate.
      * intros _. simpl join. lia.
    + rewrite Z.gtb_ltb in Hgt. apply Z.ltb_ge in Hgt.
      assert (Hall : Forall is_word (w0 :: (cur ++ [w])))
        by (apply (Forall_app is_word (w0 :: cur) [w]); split;
            [exact Hcur | constructor; [exact Hw | constructor]]).
      assert (Hj : len (join [space] ((w0 :: cur) ++ [w]))
                   = len (join [space] (w0 :: cur)) + 1 + len w).
      { rewrite join_app by discriminate. rewrite !len_app. simpl join.
        change (len [space]) with 1. lia. }
      split; [|split; [|split]].
      * apply (merge_exceeds_last (chunks st) (join [space] (w0 :: cur))); [exact Hm|].
        rewrite (first_word_join w0 cur) by exact Hcur.
        change ((w0 :: cur) ++ [w]) with (w0 :: (cur ++ [w])).
        rewrite (first_word_join w0 (cur ++ [w])) by exact Hall. reflexivity.
      * exact Hall.
      * discriminate.
      * intros _. lia.
Qed.

Lemma greedy_words (ws : list pystr) (st : chunker) :
  Forall is_word ws ->
  merge_exceeds chunk_size (flush st) /\
  Forall is_word (current_chunk st) /\
  (current_chunk st = [] -> chunks st = [] /\ current_length st <= 0) /\
  (current_chunk st <> [] ->
   current_length st <= len (join [space] (current_chunk st)) + 1) ->
  merge_exceeds chunk_size (flush (chunk_words chunk_size st ws)).
Proof.
  intros Hws. revert st. induction Hws as [|w ws Hw Hws IH]; intros st Hinv.
  - apply Hinv.
  - rewrite chunk_words_cons. apply IH. apply greedy_step; assumption.
Qed.

Lemma merge_exceeds_pair (pre post : list pystr) (c c' : pystr) :
  merge_exceeds chunk_size (pre ++ c :: c' :: post) ->
  chunk_size < len c + 1 + len (first_word c').
Proof.
  induction pre as [|x pre IH]; intros H.
  - simpl in H. apply H.
  - apply IH. simpl in H. apply H.
Qed.

End Greedy.

(** X4 (greedy cut): the cut is greedy: a chunk followed by another could not
    have taken the first word of the next one, with its separating space, and
    stayed within the cap. *)
Theorem chunk_text_greedy (text : pystr) (chunk_size : Z)
  (pre post : list pystr) (c c' : pystr) :
  chunk_text text chunk_size = pre ++ c :: c' :: post ->
  chunk_size < len c + 1 + len (first_word c').
Proof.
  intros H. apply (merge_exceeds_pair chunk_size pre post). rewrite <- H.
  unfold chunk_text. apply greedy_words; [apply split_words|].
  unfold flush. simpl. repeat split; auto; try discriminate.
Qed.

Lemma chunk_text_greedy_witness :
  3 < len (py "x") + 1 + len (first_word (py "ab c")).
Proof.
  apply (chunk_text_greedy (py "x ab c") 3 [] [] (py "x") (py "ab c")).
  reflexivity.
Defined.

(** * The body on the wire *)

Section Wire.

Lemma all_printable_app (a b : pystr) :
  all_printable a -> all_printable b -> all_printable (a ++ b).
Proof.
  unfold all_printable. intros Ha Hb. rewrite forallb_app, Ha, Hb. reflexivity.
Qed.

Lemma hex_digit_printable (n : N) : (n < 16)%N -> printable (hex_digit n) = true.
Proof.
  intros H. unfold hex_digit, printable.
  destruct (n <? 10)%N eqn:E.
  - apply N.ltb_lt in E. apply andb_true_iff. split; apply N.leb_le; lia.
  - apply N.ltb_ge in E. apply andb_true_iff. split; apply N.leb_le; lia.
Qed.

Lemma u_escape_printable (n : N) : all_printable (u_escape n).
Proof.
  unfold all_printable, u_escape. cbn [py app forallb].
  rewrite !hex_digit_printable by (apply N.mod_lt; discriminate).
  reflexivity.
Qed.

Lemma escape_char_printable (c : char) : all_printable (escape_char c).
Proof.
  unfold escape_char.
  repeat match goal with
         | |- all_printable (if ?b then _ else _) => destruct b eqn:?
         end.
  1-7: reflexivity.
  - unfold all_printable, printable. cbn [forallb].
    rewrite andb_true_r. assumption.
  - apply u_escape_printable.
  - apply all_printable_app; apply u_escape_printable.
Qed.

Lemma dumps_str_printable (s : pystr) : all_printable (dumps_str s).
Proof.
  unfold dumps_str. apply all_printable_app; [reflexivity|].
  apply all_printable_app; [|reflexivity].
  induction s as [|c s IH]; [reflexivity|].
  simpl. apply all_printable_app; [apply escape_char_printable | exact IH].
Qed.

Ltac printable_parts :=
  repeat match goal with
         | |- all_printable (dumps_str _) => apply dumps_str_printable
         | |- all_printable (dumps_int _) => first [assumption | reflexivity]
         | |- all_printable (_ ++ _) => apply all_printable_app
         | |- all_printable (py _) => reflexivity
         end.

(** A JSON object with one string field and the payloads built from it. *)
Lemma delta_payload_printable (content : pystr) :
  all_printable
    (dumps (JDict [(py "choices",
                    JList [JDict [(py "delta",
                                   JDict [(py "content", JStr content)])]])])).
Proof. cbn [dumps map join fst snd]. printable_parts. Qed.

Lemma error_payload_printable (message : pystr) (code : Z) :
  all_printable (dumps_int code) ->
  all_printable (dumps (JDict [(py "error", JStr message); (py "code", JInt code)])).
Proof. intros Hcode. cbn [dumps map join fst snd]. printable_parts. Qed.

Lemma printable_not_newline (c : char) :
  printable c = true -> (c =? newline)%N = false.
Proof.
  unfold printable, newline. intros H. apply andb_true_iff in H as [H _].
  apply N.leb_le in H. apply N.eqb_neq. lia.
Qed.

(** A payload and its blank line read as one line and one empty line. *)
Lemma iter_lines_payload (p rest line : pystr) :
  all_printable p ->
  iter_lines_from line (p ++ [newline; newline] ++ rest)
  = (line ++ p) :: [] :: iter_lines_from [] rest.
Proof.
  unfold all_printable. revert line. induction p as [|c p IH]; intros line Hp.
  - simpl. rewrite app_nil_r. reflexivity.
  - simpl in Hp. apply andb_true_iff in Hp as [Hc Hp].
    cbn [app iter_lines_from]. rewrite (printable_not_newline c Hc).
    rewrite IH by assumption. rewrite <- app_assoc. reflexivity.
Qed.

Lemma data_lines_frame (p rest : pystr) :
  all_printable p ->
  data_lines (sse p ++ rest) = (py "data: " ++ p) :: data_lines rest.
Proof.
  intros Hp. unfold data_lines, sse.
  replace ((py "data: " ++ p ++ [newline; newline]) ++ rest)
    with ((py "data: " ++ p) ++ [newline; newline] ++ rest)
    by (rewrite <- !app_assoc; reflexivity).
  rewrite iter_lines_payload
    by (apply all_printable_app; [reflexivity | exact Hp]).
  reflexivity.
Qed.

Lemma unframe_sse (p : pystr) : unframe (sse p) = py "data: " ++ p.
Proof.
  unfold unframe, sse.
  replace (py "data: " ++ p ++ [newline; newline])
    with (((py "data: " ++ p) ++ [newline]) ++ [newline])
    by (rewrite <- !app_assoc; reflexivity).
  rewrite !removelast_last. reflexivity.
Qed.

Lemma data_lines_frames (frames : list pystr) :
  Forall framed frames ->
  data_lines (concat frames) = map unframe frames.
Proof.
  induction 1 as [|fr frames (p & -> & Hp) Hfr IH]; [reflexivity|].
  cbn [concat map]. rewrite data_lines_frame by exact Hp.
  rewrite IH, unframe_sse. reflexivity.
Qed.

Lemma delta_frame_framed (c : pystr) : framed (delta_frame c).
Proof. eexists. split; [reflexivity | apply delta_payload_printable]. Qed.

Lemma done_frame_framed : framed done_frame.
Proof. eexists. split; reflexivity. Qed.

Lemma error_frame_framed (e : pystr) : framed (error_frame e).
Proof.
  eexists. split; [reflexivity | apply error_payload_printable; reflexivity].
Qed.

Lemma emit_chunks_framed (f : faults) (cs : list pystr) (i : nat) :
  Forall framed (fst (emit_chunks f i cs)).
Proof.
  revert i. induction cs as [|c cs IH]; intros i; [constructor|].
  cbn [emit_chunks]. unfold attempt.
  destruct (f i CallStrip); [constructor|].
  destruct (truthy (strip c)).
  - destruct (f i CallDumps); [constructor|].
    destruct (f i CallSleep).
    + simpl. constructor; [apply delta_frame_framed | constructor].
    + specialize (IH (S i)). unfold gbind, gret, gyield. cbn [app].
      destruct (emit_chunks f (S i) cs) as [out r]. simpl in *.
      constructor; [apply delta_frame_framed | exact IH].
  - specialize (IH (S i)). unfold gbind, gret.
    destruct (emit_chunks f (S i) cs) as [out r]. simpl in *. exact IH.
Qed.

Lemma generate_framed (f : faults) (cs : list pystr) :
  Forall framed (generate f cs).
Proof.
  unfold generate, generate_gen, gtry, gbind, gyield.
  pose proof (emit_chunks_framed f cs 0) as H.
  destruct (emit_chunks f 0 cs) as [out [[]|e]]; simpl in *.
  - apply Forall_app. split; [exact H|].
    constructor; [apply done_frame_framed | constructor].
  - apply Forall_app. split; [exact H|].
    constructor; [apply error_frame_framed | constructor].
Qed.

End Wire.

(** X9 (framing on the wire): framing survives the wire: whatever the chunks
    hold and whichever call raises, the [data: ] lines the test client reads
    off the streamed body are the frames [generate] yielded, one line each and
    in order. *)
Theorem streamed_body_lines (f : faults) (chunks : list pystr) :
  data_lines (concat (generate f chunks)) = map unframe (generate f chunks) /\
  chunk_count (concat (generate f chunks)) = length (generate f chunks).
Proof.
  assert (H : data_lines (concat (generate f chunks))
              = map unframe (generate f chunks))
    by (apply data_lines_frames, generate_framed).
  split; [exact H|]. unfold chunk_count. rewrite H. apply length_map.
Qed.

(** * More of the endpoint *)

Section EndpointCases.

Variable v : variant.

(** Both bodies always give at least eight chunks. *)
Lemma synthesize_chunk_count (prompt : pystr) :
  (8 <= length (chunk_text (synthesize v prompt) 150))%nat.
Proof.
  destruct v; cbn [synthesize].
  - assert (Hhead : exists rest, App.prefix = py "Based" ++ space :: rest)
      by (eexists; reflexivity).
    apply (content_chunk_count App.prefix (unlines App.body_lines) app_tail_words
             Hhead app_tail_split 8%nat app_tail_checked).
  - assert (Hhead : exists rest, Api.prefix = py "Based" ++ space :: rest)
      by (eexists; reflexivity).
    pose proof (content_chunk_count Api.prefix (unlines Api.body_lines) api_tail_words
                  Hhead api_tail_split 18%nat api_tail_checked prompt) as H.
    unfold Api.generate_streaming_content. lia.
Qed.

(** The [try] block raises, returns one of the four rejections, or returns
    a stream. *)
Lemma try_stream_cases (r : get_json_result) :
  (exists e, try_stream v r = Raise e) \/
  (exists e, try_stream v r = Ok (bad_request (validation_frame v e))) \/
  (exists prompt, try_stream v r = Ok (streaming (chunk_text (synthesize v prompt) 150))).
Proof.
  destruct r as [data | e]; [|left; exists e; reflexivity].
  destruct (truth data) eqn:Htruth.
  2:{ right. left. exists MissingBody. unfold try_stream. cbn [get_json bind].
      rewrite Htruth. reflexivity. }
  assert (Hdict : (exists d, data = PDict d /\ d <> []) \/
                  try_stream v (Returns data) = Raise (attribute_error data (py "get"))).
  { unfold try_stream. cbn [get_json bind]. rewrite Htruth. cbn [negb].
    destruct data; try (right; reflexivity).
    left. exists d. split; [reflexivity|]. apply truthy_true. exact Htruth. }
  destruct Hdict as [(d & -> & Hd) | Hraise]; [|left; eexists; exact Hraise].
  destruct (prompt_of d) as [| | | |p| |] eqn:Hp.
  5:{ rewrite (try_stream_dict v d p Hd Hp).
      destruct (negb (truthy (strip p))); [right; left; exists EmptyPrompt; reflexivity|].
      destruct (len (strip p) >? 5000); [right; left; exists PromptTooLong; reflexivity|].
      destruct (negb (truth (stream_of d)));
        [right; left; exists StreamingRequired; reflexivity|].
      right. right. exists (strip p). reflexivity. }
  all: left; unfold try_stream; cbn [get_json bind truth];
    destruct d as [|kv d]; [congruence|]; cbn [truthy negb];
    change (py_get (PDict (kv :: d)) (py "prompt") (PStr []))
      with (@Ok pyval (prompt_of (kv :: d)));
    rewrite Hp; cbn [bind py_strip]; eexists; reflexivity.
Qed.

(** Status 400 comes from the four checks and from nowhere else. *)
Lemma status_400_rejected (r : get_json_result) :
  status (handle_post v r) = 400 -> exists e, rejected r e.
Proof.
  intros H400. destruct r as [data | e]; [|discriminate H400].
  destruct (truth data) eqn:Htruth.
  2:{ exists MissingBody. constructor. exact Htruth. }
  assert (Hdict : (exists d, data = PDict d /\ d <> []) \/
                  try_stream v (Returns data) = Raise (attribute_error data (py "get"))).
  { unfold try_stream. cbn [get_json bind]. rewrite Htruth. cbn [negb].
    destruct data; try (right; reflexivity).
    left. exists d. split; [reflexivity|]. apply truthy_true. exact Htruth. }
  destruct Hdict as [(d & -> & Hd) | Hraise].
  2:{ unfold handle_post in H400. rewrite Hraise in H400. discriminate H400. }
  destruct (prompt_of d) as [| | | |p| |] eqn:Hp.
  5:{ destruct (dict_rejected_or_accepted d p Hp) as [Hrej | Hacc]; [exact Hrej|].
      rewrite (accepted_response v _ _ Hacc) in H400. discriminate H400. }
  all: exfalso; unfold handle_post, try_stream in H400;
    cbn [get_json bind truth] in H400;
    destruct d as [|kv d]; [congruence|]; cbn [truthy negb] in H400;
    change (py_get (PDict (kv :: d)) (py "prompt") (PStr []))
      with (@Ok pyval (prompt_of (kv :: d))) in H400;
    rewrite Hp in H400; cbn [bind py_strip] in H400; discriminate H400.
Qed.

Lemma server_error_one_line (e : pystr) :
  chunk_count (sse (dumps (error_response e))) = 1%nat /\
  is_content_delta (sse (dumps (error_response e))) = false.
Proof.
  split; [|reflexivity]. unfold chunk_count.
  rewrite <- (app_nil_r (sse _)). rewrite data_lines_frame; [reflexivity|].
  apply error_payload_printable. reflexivity.
Qed.

End EndpointCases.

(** X10 (the client's chunk count): what the test client counts on an accepted
    request that streams without a fault: one [data: ] line per chunk and one
    for the sentinel, always more than the 5 its report checks for, in both
    variants. *)
Theorem accepted_stream_chunk_count
  (v : variant) (r : get_json_result) (prompt : pystr) :
  accepted r prompt ->
  exists chunks,
    response_body (handle_post v r) = Stream chunks /\
    chunk_count (concat (generate no_faults chunks)) = S (length chunks) /\
    (5 < chunk_count (concat (generate no_faults chunks)))%nat.
Proof.
  intros Hacc. exists (chunk_text (synthesize v prompt) 150).
  rewrite (accepted_response v r prompt Hacc).
  assert (Hcount : chunk_count (concat (generate no_faults
                                          (chunk_text (synthesize v prompt) 150)))
                   = S (length (chunk_text (synthesize v prompt) 150))).
  { unfold chunk_count.
    rewrite (data_lines_frames _ (generate_framed no_faults _)), length_map.
    rewrite generate_no_faults
      by (eapply Forall_impl; [|apply chunk_text_trimmed]; apply trimmed_nonblank).
    rewrite length_app, length_map. simpl. lia. }
  split; [reflexivity | split; [exact Hcount|]].
  rewrite Hcount. pose proof (synthesize_chunk_count v prompt). lia.
Qed.

Lemma accepted_stream_chunk_count_witness :
  exists chunks,
    response_body (handle_post VApp explain_request) = Stream chunks /\
    chunk_count (concat (generate no_faults chunks)) = S (length chunks) /\
    (5 < chunk_count (concat (generate no_faults chunks)))%nat.
Proof.
  apply (accepted_stream_chunk_count VApp explain_request explain_prompt).
  exists [(py "prompt", PStr explain_prompt); (py "stream", PBool true)],
         explain_prompt.
  repeat split; try reflexivity; try discriminate.
Defined.

(** X11 (every answer is an event stream): every answer to a POST is an event
    stream of one of two kinds, whatever the body: status 200 with the three
    streaming headers and a generated body, or status 400 or 500 with no extra
    header and a fixed body that is exactly one [data: ] line and no content
    delta. *)
Theorem response_is_event_stream (v : variant) (r : get_json_result) :
  content_type (handle_post v r) = py "text/event-stream" /\
  ((status (handle_post v r) = 200 /\
    headers (handle_post v r) = stream_headers /\
    exists chunks, response_body (handle_post v r) = Stream chunks)
   \/
   ((status (handle_post v r) = 400 \/ status (handle_post v r) = 500) /\
    headers (handle_post v r) = [] /\
    exists s, response_body (handle_post v r) = Static s /\
              chunk_count s = 1%nat /\ is_content_delta s = false)).
Proof.
  unfold handle_post.
  destruct (try_stream_cases v r) as [(e & ->) | [(e & ->) | (p & ->)]].
  - split; [reflexivity|]. right. split; [right; reflexivity|].
    split; [reflexivity|]. eexists. split; [reflexivity|].
    apply server_error_one_line.
  - split; [reflexivity|]. right. split; [left; reflexivity|].
    split; [reflexivity|]. exists (validation_frame v e). split; [reflexivity|].
    destruct (validation_frame_one_line v e) as [Hl Hd].
    split; [unfold chunk_count; rewrite Hl; reflexivity | exact Hd].
  - split; [reflexivity|]. left. split; [reflexivity|].
    split; [reflexivity|]. eexists. reflexivity.
Qed.

(** X12 (truthy body that is no object): a JSON document that is truthy but no
    object (a non-empty array or string, a non-zero number, [true]) is not
    rejected as a validation error: [data.get] raises and the outer handler
    answers with status 500. *)
Theorem non_dict_body_server_error (v : variant) (data : pyval) :
  truth data = true ->
  (forall d, data <> PDict d) ->
  handle_post v (Returns data)
  = {| response_body :=
         Static (sse (dumps (JDict
           [(py "error",
             JStr (py "Server error: '" ++ type_name data
                   ++ py "' object has no attribute 'get'"));
            (py "code", JInt 500)])));
       content_type := py "text/event-stream";
       status := 500;
       headers := [] |}.
Proof.
  intros Htruth Hnd. unfold handle_post, try_stream. cbn [get_json bind].
  rewrite Htruth. cbn [negb].
  destruct data; try reflexivity. exfalso. apply (Hnd d). reflexivity.
Qed.

Lemma non_dict_body_server_error_witness :
  handle_post VApp (Returns (PList [PStr (py "hi")]))
  = {| response_body :=
         Static (sse (dumps (JDict
           [(py "error",
             JStr (py "Server error: 'list' object has no attribute 'get'"));
            (py "code", JInt 500)])));
       content_type := py "text/event-stream";
       status := 500;
       headers := [] |}.
Proof.
  apply (non_dict_body_server_error VApp (PList [PStr (py "hi")])).
  - reflexivity.
  - intros d. discriminate.
Defined.

Section Strip.

Lemma lstrip_spec (s : pystr) :
  exists x, s = x ++ lstrip s /\ forallb isspace x = true /\
            forall c t, lstrip s = c :: t -> isspace c = false.
Proof.
  induction s as [|a s (x & Hs & Hx & Hhead)].
  - exists []. simpl. repeat split. intros c t H. discriminate.
  - simpl. destruct (isspace a) eqn:Ha.
    + exists (a :: x). simpl. rewrite Ha, Hx. rewrite <- Hs. auto.
    + exists []. simpl. repeat split. intros c t H. injection H as <- _. exact Ha.
Qed.

(** What [strip] returns is empty or starts and ends with a code point that
    is not white space. *)
Lemma strip_trimmed (s : pystr) : strip s = [] \/ trimmed (strip s).
Proof.
  unfold strip. destruct (lstrip_spec s) as (_ & _ & _ & Hhead).
  destruct (lstrip s) as [|c t] eqn:Ha; [left; reflexivity|].
  specialize (Hhead c t eq_refl).
  destruct (lstrip_spec (rev (c :: t))) as (x & Hrev & Hx & Hhead').
  destruct (lstrip (rev (c :: t))) as [|d u] eqn:Hb.
  - exfalso. rewrite app_nil_r in Hrev. rewrite <- Hrev in Hx.
    simpl in Hx. rewrite forallb_app in Hx. apply andb_true_iff in Hx as [_ Hc].
    simpl in Hc. rewrite Hhead in Hc. discriminate.
  - specialize (Hhead' d u eq_refl). right. split.
    + assert (E : c :: t = rev (d :: u) ++ rev x).
      { rewrite <- rev_app_distr, <- Hrev, rev_involutive. reflexivity. }
      destruct (rev (d :: u)) as [|c' t'] eqn:Hr.
      * apply (f_equal (@length _)) in Hr. rewrite length_rev in Hr. discriminate.
      * exists c', t'. split; [reflexivity|]. simpl in E. injection E as -> _.
        exact Hhead.
    + exists (rev u), d. split; [reflexivity | exact Hhead'].
Qed.

Lemma strip_idempotent (s : pystr) : strip (strip s) = strip s.
Proof.
  destruct (strip_trimmed s) as [-> | H]; [reflexivity|].
  apply trimmed_strip, H.
Qed.

End Strip.

(** X13 (white space around the prompt): white space around the prompt never
    changes the answer: the request with the prompt as sent and the request
    with the trimmed prompt get the same response. *)
Theorem prompt_whitespace_ignored (v : variant) (prompt : pystr) (stream : pyval) :
  handle_post v (chat_request prompt stream)
  = handle_post v (chat_request (strip prompt) stream).
Proof.
  unfold handle_post, chat_request.
  rewrite (try_stream_dict v _ prompt) by (discriminate || reflexivity).
  rewrite (try_stream_dict v _ (strip prompt)) by (discriminate || reflexivity).
  rewrite strip_idempotent. reflexivity.
Qed.

(** * The CORS hook *)

Section Cors.

Lemma pystr_eqb_eq (a b : pystr) : pystr_eqb a b = true <-> a = b.
Proof.
  unfold pystr_eqb. destruct (list_eq_dec N.eq_dec a b); split; congruence.
Qed.

Lemma same_header_refl (k : pystr) : same_header k k = true.
Proof. apply pystr_eqb_eq. reflexivity. Qed.

Lemma same_header_trans_neg (a k k' : pystr) :
  same_header a k = true -> same_header k k' = false -> same_header a k' = false.
Proof.
  unfold same_header. intros H H'. apply pystr_eqb_eq in H. rewrite H. exact H'.
Qed.

Lemma headers_get_set_same (k value : pystr) (hs : list (pystr * pystr)) :
  headers_get k (headers_set k value hs) = Some value.
Proof.
  induction hs as [|[k0 x] hs IH]; simpl.
  - rewrite same_header_refl. reflexivity.
  - destruct (same_header k0 k) eqn:E; simpl.
    + rewrite same_header_refl. reflexivity.
    + rewrite E. exact IH.
Qed.

Lemma headers_get_filter (k k' : pystr) (hs : list (pystr * pystr)) :
  same_header k k' = false ->
  headers_get k' (filter (fun kv => negb (same_header (fst kv) k)) hs)
  = headers_get k' hs.
Proof.
  intros Hk. induction hs as [|[a y] hs IH]; [reflexivity|].
  simpl. destruct (same_header a k) eqn:E; simpl.
  - rewrite (same_header_trans_neg a k k' E Hk). exact IH.
  - rewrite IH. reflexivity.
Qed.

Lemma headers_get_set_other (k k' value : pystr) (hs : list (pystr * pystr)) :
  same_header k k' = false ->
  headers_get k' (headers_set k value hs) = headers_get k' hs.
Proof.
  intros Hk. induction hs as [|[k0 x] hs IH]; simpl.
  - rewrite Hk. reflexivity.
  - destruct (same_header k0 k) eqn:E; simpl.
    + rewrite Hk, (same_header_trans_neg k0 k k' E Hk).
      apply headers_get_filter, Hk.
    + rewrite IH. reflexivity.
Qed.

End Cors.

(** X14 (CORS hook): the hook puts the three CORS headers on any response,
    whatever it held before, and touches nothing else: status, body, content
    type and every header of another name stay as the view set them. *)
Theorem add_cors_headers_sets_three (response : Response) :
  headers_get allow_origin (headers (add_cors_headers response)) = Some (py "*") /\
  headers_get allow_methods (headers (add_cors_headers response))
  = Some (py "POST, GET, OPTIONS") /\
  headers_get allow_headers (headers (add_cors_headers response))
  = Some (py "Content-Type, Authorization") /\
  status (add_cors_headers response) = status response /\
  response_body (add_cors_headers response) = response_body response /\
  content_type (add_cors_headers response) = content_type response /\
  forall k,
    same_header allow_origin k = false ->
    same_header allow_methods k = false ->
    same_header allow_headers k = false ->
    headers_get k (headers (add_cors_headers response))
    = headers_get k (headers response).
Proof.
  unfold add_cors_headers. cbn [headers status response_body content_type].
  repeat split.
  - rewrite !headers_get_set_other by reflexivity. apply headers_get_set_same.
  - rewrite headers_get_set_other by reflexivity. apply headers_get_set_same.
  - apply headers_get_set_same.
  - intros k H1 H2 H3. rewrite !headers_get_set_other by assumption. reflexivity.
Qed.

Lemma add_cors_headers_sets_three_witness :
  headers_get (py "cache-control") (headers (api_respond false explain_request))
  = Some (py "no-cache") /\
  headers_get allow_origin (headers (api_respond true (Raises (py "no body"))))
  = Some (py "*").
Proof.
  split.
  - destruct (add_cors_headers_sets_three (api_stream_endpoint false explain_request))
      as (_ & _ & _ & _ & _ & _ & Hother).
    unfold api_respond. rewrite (Hother (py "cache-control")); reflexivity.
  - apply (add_cors_headers_sets_three (api_stream_endpoint true (Raises (py "no body")))).
Defined.

(** * [simple_app.py] *)

Section SimplePieces.

Import SimpleApp.

Lemma split_dot_cons2 (piece : pystr) (c c2 : char) (r2 : pystr) :
  split_dot piece (c :: c2 :: r2)
  = if ((c =? 46) && (c2 =? 32))%N
    then piece :: split_dot [] r2
    else split_dot (piece ++ [c]) (c2 :: r2).
Proof. reflexivity. Qed.

Lemma split_dot_piece (s piece : pystr) :
  split_dot piece s
  = (piece ++ hd [] (split_dot [] s)) :: tl (split_dot [] s).
Proof.
  revert piece. induction s as [|c r IH]; intros piece.
  - simpl. rewrite app_nil_r. reflexivity.
  - destruct r as [|c2 r2]; [reflexivity|].
    rewrite !split_dot_cons2. destruct ((c =? 46) && (c2 =? 32))%N.
    + simpl. rewrite app_nil_r. reflexivity.
    + rewrite (IH (piece ++ [c])), (IH ([] ++ [c])).
      simpl. rewrite <- app_assoc. reflexivity.
Qed.

Lemma split_dot_nonempty (s piece : pystr) : split_dot piece s <> [].
Proof. rewrite split_dot_piece. discriminate. Qed.

Lemma join_split_dot_bounded (n : nat) :
  forall s piece, (length s <= n)%nat ->
    join (py ". ") (split_dot piece s) = piece ++ s.
Proof.
  induction n as [|n IH]; intros s piece Hn.
  - destruct s; [simpl; rewrite app_nil_r; reflexivity | simpl in Hn; lia].
  - destruct s as [|c [|c2 r2]].
    + simpl. rewrite app_nil_r. reflexivity.
    + reflexivity.
    + rewrite split_dot_cons2. destruct ((c =? 46) && (c2 =? 32))%N eqn:E.
      * apply andb_true_iff in E as [Ec Ec2].
        apply N.eqb_eq in Ec, Ec2. subst c c2.
        rewrite join_cons by apply split_dot_nonempty.
        rewrite IH by (simpl in *; lia). reflexivity.
      * rewrite IH by (simpl in *; lia). rewrite <- app_assoc. reflexivity.
Qed.

(** ['. '.join(s.split('. ')) == s] *)
Lemma join_split_dot (s : pystr) : join (py ". ") (split_dot [] s) = s.
Proof. apply (join_split_dot_bounded (length s)). lia. Qed.

Lemma has_sep_snoc (s : pystr) (c : char) :
  has_sep s = false -> (c =? 32)%N = false -> has_sep (s ++ [c]) = false.
Proof.
  intros Hs Hc. induction s as [|a s IH]; [reflexivity|].
  destruct s as [|b s].
  - simpl. rewrite Hc, andb_false_r. reflexivity.
  - cbn [has_sep] in Hs. apply orb_false_iff in Hs as [Hab Hrest].
    change ((a :: b :: s) ++ [c]) with (a :: b :: (s ++ [c])).
    cbn [has_sep]. rewrite Hab. apply IH. exact Hrest.
Qed.

(** A stretch without a separator, also across its end, joins the piece
    being read. *)
Lemma split_dot_skip (p rest piece : pystr) :
  has_sep (p ++ firstn 1 rest) = false ->
  split_dot piece (p ++ rest) = split_dot (piece ++ p) rest.
Proof.
  revert piece. induction p as [|c p IH]; intros piece H.
  - simpl. rewrite app_nil_r. reflexivity.
  - assert (Hstep : match p ++ rest with
                    | [] => True
                    | c2 :: _ => ((c =? 46) && (c2 =? 32))%N = false
                    end /\ has_sep (p ++ firstn 1 rest) = false).
    { destruct p as [|b p].
      - destruct rest as [|b rest]; simpl in *; [auto|].
        rewrite orb_false_r in H. auto.
      - change ((c :: b :: p) ++ firstn 1 rest)
          with (c :: b :: (p ++ firstn 1 rest)) in H.
        cbn [has_sep] in H. apply orb_false_iff in H as [H1 H2]. simpl. auto. }
    destruct Hstep as [Hc Hrest].
    change ((c :: p) ++ rest) with (c :: (p ++ rest)).
    destruct (p ++ rest) as [|c2 r2] eqn:E.
    + apply app_eq_nil in E as [-> ->]. reflexivity.
    + rewrite split_dot_cons2, Hc, IH by exact Hrest.
      rewrite <- app_assoc. reflexivity.
Qed.

Lemma simple_delta_is_delta (c : pystr) :
  is_content_delta (SimpleApp.delta_frame c) = true.
Proof. reflexivity. Qed.

Lemma emit_pieces_no_faults (ps : list pystr) (i : nat) :
  emit_pieces no_faults i ps
  = (map SimpleApp.delta_frame (filter truthy ps), Ok tt).
Proof.
  revert i. induction ps as [|p ps IH]; intros i; [reflexivity|].
  cbn [emit_pieces filter]. rewrite IH.
  destruct (truthy p); reflexivity.
Qed.


End SimplePieces.

Lemma simple_app_pieces_helper (shown : pystr) :
  join (py ". ") (SimpleApp.pieces shown) = SimpleApp.response shown /\
  SimpleApp.generate no_faults shown
  = map SimpleApp.delta_frame (filter truthy (SimpleApp.pieces shown))
    ++ [done_frame].
Proof.
  split; [apply join_split_dot|].
  unfold SimpleApp.generate, SimpleApp.generate_gen.
  rewrite emit_pieces_no_faults. reflexivity.
Qed.

(** X15 (pieces of [simple_app.py]): [simple_app.py] cuts its response at
    every full stop followed by a space and loses nothing but the separators:
    the pieces joined with that separator are the response, and without a
    fault the stream is one frame per non-empty piece, in order, then the
    sentinel. *)
Theorem simple_app_pieces (shown : pystr) :
  join (py ". ") (SimpleApp.pieces shown) = SimpleApp.response shown /\
  SimpleApp.generate no_faults shown
  = map SimpleApp.delta_frame (filter truthy (SimpleApp.pieces shown))
    ++ [done_frame].
Proof.
  split.
  - unfold SimpleApp.pieces. apply join_split_dot.
  - unfold SimpleApp.generate, SimpleApp.generate_gen.
    rewrite emit_pieces_no_faults. reflexivity.
Qed.

(** X16 (two frames of [simple_app.py]): for a prompt text without a full stop
    followed by a space, the response of [simple_app.py] has exactly one such
    separator, in its fixed part: the stream is two content frames and the
    sentinel, however many chunks the text announces, and the contents read
    together are the response with one more full stop and space. *)
Theorem simple_app_two_frames (shown : pystr) :
  SimpleApp.has_sep shown = false ->
  exists a b,
    SimpleApp.pieces shown = [a; b] /\
    SimpleApp.generate no_faults shown
    = [SimpleApp.delta_frame a; SimpleApp.delta_frame b; done_frame] /\
    (a ++ py ". ") ++ (b ++ py ". ") = SimpleApp.response shown ++ py ". ".
Proof.
  intros Hsep.
  assert (Htail : exists a0 b, SimpleApp.split_dot [] (unlines SimpleApp.body_lines) = [a0; b]
                               /\ b <> []
                               /\ firstn 1 (unlines SimpleApp.body_lines) = [39%N]).
  { eexists. eexists. split; [vm_compute; reflexivity|].
    split; [discriminate | reflexivity]. }
  destruct Htail as (a0 & b & Htail & Hb & Hfirst).
  assert (Hpieces : SimpleApp.pieces shown
                    = [(SimpleApp.prefix ++ shown) ++ a0; b]).
  { unfold SimpleApp.pieces, SimpleApp.response.
    rewrite split_dot_skip.
    - rewrite split_dot_skip by (rewrite Hfirst; apply has_sep_snoc;
                                 [exact Hsep | reflexivity]).
      rewrite split_dot_piece, Htail. reflexivity.
    - destruct shown as [|x shown]; reflexivity. }
  exists ((SimpleApp.prefix ++ shown) ++ a0), b.
  split; [exact Hpieces|].
  destruct (simple_app_pieces_helper shown) as [Hjoin Hgen].
  split.
  - rewrite Hgen, Hpieces. cbn [filter].
    rewrite <- !app_assoc. change (truthy (SimpleApp.prefix ++ shown ++ a0)) with true.
    apply truthy_true in Hb. rewrite Hb. reflexivity.
  - rewrite Hpieces in Hjoin. rewrite join_cons in Hjoin by discriminate.
    change (join (py ". ") [b]) with b in Hjoin.
    rewrite <- Hjoin, <- !app_assoc. reflexivity.
Qed.

Lemma simple_app_two_frames_witness :
  exists a b,
    SimpleApp.pieces explain_prompt = [a; b] /\
    SimpleApp.generate no_faults explain_prompt
    = [SimpleApp.delta_frame a; SimpleApp.delta_frame b; done_frame] /\
    (a ++ py ". ") ++ (b ++ py ". ") = SimpleApp.response explain_prompt ++ py ". ".
Proof. apply (simple_app_two_frames explain_prompt). reflexivity. Defined.


(** * The CSV endpoints *)

Section StudentRecords.

Import Students.

Lemma record_get_combine (name : pystr) (cols : list pystr) :
  forall (row : list cell) (i : nat),
    column_index name cols = Some i ->
    record_get name (combine cols row) = nth_error row i.
Proof.
  induction cols as [|c cols IH]; intros row i Hi; [discriminate|].
  simpl in Hi. destruct (pystr_eqb c name) eqn:E.
  - injection Hi as <-. destruct row; simpl; [reflexivity|]. rewrite E. reflexivity.
  - destruct (column_index name cols) as [j|] eqn:Hj; [|discriminate].
    injection Hi as <-. destruct row as [|x row]; simpl; [reflexivity|].
    rewrite E. apply IH. reflexivity.
Qed.

Lemma nth_of_nth_error (row : list cell) (i : nat) :
  nth i row CNaN = match nth_error row i with Some x => x | None => CNaN end.
Proof.
  revert i. induction row as [|x row IH]; intros [|i]; simpl; auto.
Qed.

Lemma class_of_record (cols : list pystr) (row : list cell) (i : nat) :
  column_index (py "class") cols = Some i ->
  class_of (combine cols row) = nth i row CNaN.
Proof.
  intros Hi. unfold class_of.
  rewrite (record_get_combine _ cols row i Hi), nth_of_nth_error. reflexivity.
Qed.

Lemma filter_to_records (cols : list pystr) (rs : list (list cell))
      (keep : list (pystr * cell) -> bool) :
  filter keep (to_records cols rs)
  = to_records cols (filter (fun row => keep (combine cols row)) rs).
Proof.
  unfold to_records. induction rs as [|row rs IH]; [reflexivity|].
  simpl. destruct (keep (combine cols row)); simpl; rewrite IH; reflexivity.
Qed.

Lemma isin_same (cs1 cs2 : list pystr) (x : cell) :
  (forall s, In s cs1 <-> In s cs2) -> isin cs1 x = isin cs2 x.
Proof.
  intros Hsame. destruct x; try reflexivity. simpl.
  apply eq_true_iff_eq. rewrite !existsb_exists.
  split; intros (t & Hin & Heq); exists t; (split; [apply Hsame; exact Hin | exact Heq]).
Qed.

End StudentRecords.

(** X18 (class filter): with a class column in the CSV, the answer to a query
    with classes is the answer to the query without any, in the same order,
    restricted to the records whose class is one of the requested strings; an
    empty list of classes is no filter. *)
Theorem get_students_filtered
  (df : Students.DataFrame) (c : pystr) (cs : list pystr) (i : nat) :
  Students.column_index (py "class") (Students.columns df) = Some i ->
  exists everyone,
    Students.get_students df None = Ok everyone /\
    Students.get_students df (Some []) = Ok everyone /\
    Students.get_students df (Some (c :: cs))
    = Ok (filter (fun record => Students.isin (c :: cs) (Students.class_of record))
                 everyone).
Proof.
  intros Hi. eexists. split; [reflexivity | split; [reflexivity|]].
  unfold Students.get_students. rewrite Hi, filter_to_records.
  do 2 f_equal. apply filter_ext. intros row.
  rewrite (class_of_record _ row i Hi). reflexivity.
Qed.

Lemma get_students_filtered_witness :
  exists everyone,
    Students.get_students
      {| Students.columns := [py "studentId"; py "class"];
         Students.rows := [[Students.CInt 1; Students.CStr (py "1A")];
                           [Students.CInt 2; Students.CStr (py "1B")];
                           [Students.CInt 3; Students.CStr (py "1A")]] |}
      None = Ok everyone /\
    Students.get_students
      {| Students.columns := [py "studentId"; py "class"];
         Students.rows := [[Students.CInt 1; Students.CStr (py "1A")];
                           [Students.CInt 2; Students.CStr (py "1B")];
                           [Students.CInt 3; Students.CStr (py "1A")]] |}
      (Some []) = Ok everyone /\
    Students.get_students
      {| Students.columns := [py "studentId"; py "class"];
         Students.rows := [[Students.CInt 1; Students.CStr (py "1A")];
                           [Students.CInt 2; Students.CStr (py "1B")];
                           [Students.CInt 3; Students.CStr (py "1A")]] |}
      (Some [py "1A"])
    = Ok (filter (fun record => Students.isin [py "1A"] (Students.class_of record))
                 everyone).
Proof.
  apply (get_students_filtered
           {| Students.columns := [py "studentId"; py "class"];
              Students.rows := [[Students.CInt 1; Students.CStr (py "1A")];
                                [Students.CInt 2; Students.CStr (py "1B")];
                                [Students.CInt 3; Students.CStr (py "1A")]] |}
           (py "1A") [] 1%nat).
  reflexivity.
Defined.

(** X19 (same classes, same answer): the answer depends on the set of
    requested classes only: asking for the same classes in another order, or
    more than once, gives the same students in the same (file) order. *)
Theorem get_students_same_classes
  (df : Students.DataFrame) (cs1 cs2 : list pystr) :
  cs1 <> [] -> cs2 <> [] ->
  (forall s, In s cs1 <-> In s cs2) ->
  Students.get_students df (Some cs1) = Students.get_students df (Some cs2).
Proof.
  intros H1 H2 Hsame.
  destruct cs1 as [|a cs1]; [congruence|]. destruct cs2 as [|b cs2]; [congruence|].
  unfold Students.get_students.
  destruct (Students.column_index (py "class") (Students.columns df)); [|reflexivity].
  do 2 f_equal. apply filter_ext. intros row. apply isin_same, Hsame.
Qed.

Lemma get_students_same_classes_witness :
  Students.get_students
    {| Students.columns := [py "studentId"; py "class"];
       Students.rows := [[Students.CInt 1; Students.CStr (py "1A")];
                         [Students.CInt 2; Students.CStr (py "1B")];
                         [Students.CInt 3; Students.CStr (py "2C")]] |}
    (Some [py "1B"; py "1A"; py "1B"])
  = Students.get_students
    {| Students.columns := [py "studentId"; py "class"];
       Students.rows := [[Students.CInt 1; Students.CStr (py "1A")];
                         [Students.CInt 2; Students.CStr (py "1B")];
                         [Students.CInt 3; Students.CStr (py "2C")]] |}
    (Some [py "1A"; py "1B"]).
Proof.
  apply (get_students_same_classes _ [py "1B"; py "1A"; py "1B"] [py "1A"; py "1B"]).
  - discriminate.
  - discriminate.
  - intros s. simpl. tauto.
Defined.

